(** * cronprom: the metric collector and its configuration

    A shallow embedding of the packages [config] (internal/data/config)
    and [collector] (internal/services/collector) of hay-kot/cronprom,
    together with the part of prometheus/client_golang the collector
    calls into, and the properties of the collector proved over it;
    then of the push handler of package [web], of the commands [Serve]
    and [Push], and of [build] of package main.

    Conventions of the embedding.
    - Go [string] is [string] (a sequence of bytes), [float64] is the
      binary64 type [float] with its own addition and comparison.
    - A Go [map[string]string] that may be nil is
      [option (gmap string string)]: [None] is the nil map, which can be
      read and ranged over but not written.
    - A Go function that returns [error] returns [option error] ([None]
      is nil); a call that can also panic returns a [result].
    - Methods with a pointer receiver take the state and return the new
      one.
    - Log events are not part of the state, and neither is the mutex of
      the collector: the functions are the sequential ones. *)

From Stdlib Require Import Floats.PrimFloat.
From stdpp Require Import gmap strings list fin_maps.

Local Open Scope string_scope.

(** Go's [float64]. *)
Abbreviation float64 := PrimFloat.float (only parsing).

(** A [map[string]string] value; [None] is the nil map. *)
Abbreviation GoMap := (option (gmap string string)) (only parsing).

(** Reads of a map, defined on the nil map too: [m[k]] with its
    presence flag, and [len(m)]. *)
Definition mapGet (m : GoMap) (k : string) : option string := m ≫= (.!! k).
Definition mapLen (m : GoMap) : nat := from_option size 0 m.

(** What a running call can raise instead of returning. *)
Inductive panic :=
| PanicAssignNilMap
    (* runtime: "assignment to entry in nil map" *)
| PanicInvalidLabels
    (* prometheus: [With] on a label map [GetMetricWith] rejects *)
| PanicCounterDecrease.
    (* prometheus: "counter cannot decrease in value" *)

(* ================================================================== *)
(** * Package config *)
(* ================================================================== *)

Module config.

(** [type MetricType string], with the four constants the generator
    derives from the [ENUM(gauge, counter, histogram, summary)] comment. *)
Definition MetricType := string.
Definition MetricTypeGauge : MetricType := "gauge".
Definition MetricTypeCounter : MetricType := "counter".
Definition MetricTypeHistogram : MetricType := "histogram".
Definition MetricTypeSummary : MetricType := "summary".

(** [MetricConfig]. The [Objectives] map is only measured ([len]) and
    handed on, so it is kept as the list of its entries. *)
Record MetricConfig := {
  Name : string;
  Description : string;
  Typ : MetricType;
  Labels : list string;
  DefaultValue : float64;
  Buckets : list float64;
  Objectives : list (float64 * float64)
}.

Record Web := { Address : string }.

(** [GlobalConfig]; [parsedInterval] is a [time.Duration] (nanoseconds). *)
Record GlobalConfig := {
  Namespace : string;
  RefreshInterval : string;
  parsedInterval : Z
}.

Record Config := {
  Global : GlobalConfig;
  Metrics : list MetricConfig;
  Web_ : Web
}.

(** The errors the package builds with [fmt.Errorf], one constructor per
    format string. *)
Inductive error :=
| ErrEmptyName
    (* "metric name cannot be empty" *)
| ErrHistogramNoBuckets (name : string)
    (* "histogram metric '%s' must define buckets" *)
| ErrSummaryNoObjectives (name : string)
    (* "summary metric '%s' must define objectives" *)
| ErrUnknownType (t : MetricType) (name : string)
    (* "unknown metric type '%s' for metric '%s'" *)
| ErrDuplicateName (name : string)
    (* "duplicate metric name: %s" *)
| ErrEmptyNamespace
    (* "global namespace cannot be empty" *)
| ErrInvalidRefreshInterval.
    (* "invalid refresh interval: %w" *)

(** [func (m *MetricConfig) Validate() error] *)
Definition MetricConfig_Validate (m : MetricConfig) : option error :=
  if String.eqb (Name m) "" then Some ErrEmptyName
  else if String.eqb (Typ m) MetricTypeGauge
          || String.eqb (Typ m) MetricTypeCounter then None
  else if String.eqb (Typ m) MetricTypeHistogram then
    if Nat.eqb (length (Buckets m)) 0
    then Some (ErrHistogramNoBuckets (Name m)) else None
  else if String.eqb (Typ m) MetricTypeSummary then
    if Nat.eqb (length (Objectives m)) 0
    then Some (ErrSummaryNoObjectives (Name m)) else None
  else Some (ErrUnknownType (Typ m) (Name m)).

(** The loop of [Config.Validate] over [c.Metrics]: [pending] is what
    [range] has still to visit, [i] its index, [metricNames] the
    [map[string]bool] of names seen, [metrics] the slice, written back
    at [i] after each definition that passes. *)
Fixpoint validateLoop (metricNames : gmap string bool) (i : nat)
    (pending metrics : list MetricConfig) : list MetricConfig * option error :=
  match pending with
  | [] => (metrics, None)
  | metric :: rest =>
    match MetricConfig_Validate metric with
    | Some e => (metrics, Some e)
    | None =>
      if default false (metricNames !! Name metric)
      then (metrics, Some (ErrDuplicateName (Name metric)))
      else validateLoop (<[Name metric := true]> metricNames) (S i) rest
                        (<[i := metric]> metrics)
    end
  end.

Definition validateMetrics (metrics : list MetricConfig)
    : list MetricConfig * option error :=
  validateLoop ∅ 0 metrics metrics.

(** The grounds on which the specification has validation reject a
    definition by itself: an empty name, a histogram without buckets, a
    summary without objectives, a kind outside the four. *)
Definition knownType (t : MetricType) : Prop :=
  t = MetricTypeGauge ∨ t = MetricTypeCounter
  ∨ t = MetricTypeHistogram ∨ t = MetricTypeSummary.

Definition invalid (m : MetricConfig) : Prop :=
  Name m = ""
  ∨ (Typ m = MetricTypeHistogram ∧ Buckets m = [])
  ∨ (Typ m = MetricTypeSummary ∧ Objectives m = [])
  ∨ ¬ knownType (Typ m).

(** The definition at index [i] offends: it is invalid by itself, or an
    earlier definition has its name. *)
Definition offending (metrics : list MetricConfig) (i : nat) : Prop :=
  ∃ m, metrics !! i = Some m
       ∧ (invalid m
          ∨ ∃ j m', j < i ∧ metrics !! j = Some m' ∧ Name m' = Name m).

(** The error the specification reports for an offending definition, in
    the order it lists them: [EmptyName], [MissingBuckets],
    [MissingObjectives], [UnknownKind], [DuplicateName]. *)
Definition specError (m : MetricConfig) : error :=
  if bool_decide (Name m = "") then ErrEmptyName
  else if bool_decide (Typ m = MetricTypeHistogram ∧ Buckets m = [])
  then ErrHistogramNoBuckets (Name m)
  else if bool_decide (Typ m = MetricTypeSummary ∧ Objectives m = [])
  then ErrSummaryNoObjectives (Name m)
  else if bool_decide (knownType (Typ m)) then ErrDuplicateName (Name m)
  else ErrUnknownType (Typ m) (Name m).

Section WithParseDuration.

(** [time.ParseDuration] of the Go standard library. *)
Variable time_ParseDuration : string → option Z.

(** [func (g *GlobalConfig) ParsedRefreshInterval() (time.Duration, error)] *)
Definition ParsedRefreshInterval (g : GlobalConfig)
    : GlobalConfig * (Z * option error) :=
  if negb (Z.eqb (parsedInterval g) 0) then (g, (parsedInterval g, None))
  else
    match time_ParseDuration (RefreshInterval g) with
    | None =>
      ({| Namespace := Namespace g; RefreshInterval := RefreshInterval g;
          parsedInterval := 0 |}, (0%Z, Some ErrInvalidRefreshInterval))
    | Some d =>
      ({| Namespace := Namespace g; RefreshInterval := RefreshInterval g;
          parsedInterval := d |}, (d, None))
    end.

(** [func (c *Config) Validate() error] *)
Definition Config_Validate (c : Config) : Config * option error :=
  if String.eqb (Namespace (Global c)) "" then (c, Some ErrEmptyNamespace)
  else
    let '(g, (_, err)) := ParsedRefreshInterval (Global c) in
    match err with
    | Some e => ({| Global := g; Metrics := Metrics c; Web_ := Web_ c |}, Some e)
    | None =>
      let '(metrics, err) := validateMetrics (Metrics c) in
      ({| Global := g; Metrics := metrics; Web_ := Web_ c |}, err)
    end.

End WithParseDuration.

End config.

(* ================================================================== *)
(** * The part of prometheus/client_golang the collector uses *)
(* ================================================================== *)

(** Not code of this repository: modelled from the library's documented
    behaviour. Descriptors carry no constant labels (the collector sets
    none), so a descriptor's identity in a registry is its fully
    qualified name. A metric vector maps the values of its variable
    labels, in declaration order, to a child; children are made on first
    use. A gauge or counter child is the [float64] it holds. A histogram
    or summary child is kept as the observations it has received, of
    which bucket counts, sums and quantiles are functions; what the
    library checks of the buckets and objectives when it makes such a
    child is left out. *)
Module prometheus.

(** The bytes of a string. *)
Fixpoint bytes (s : string) : list N :=
  match s with
  | EmptyString => []
  | String a s' => Ascii.N_of_ascii a :: bytes s'
  end.

Definition inRange (lo hi b : N) : bool := (lo <=? b)%N && (b <=? hi)%N.

(** [utf8.ValidString]: after a lead byte, the first continuation byte
    lies in the lead's accept range and the others in 0x80..0xBF. *)
Fixpoint validBytes (bs : list N) : bool :=
  match bs with
  | [] => true
  | b :: rest =>
    if (b <? 0x80)%N then validBytes rest
    else if inRange 0xC2 0xDF b then
      match rest with
      | c1 :: r => inRange 0x80 0xBF c1 && validBytes r
      | _ => false
      end
    else if inRange 0xE0 0xEF b then
      match rest with
      | c1 :: c2 :: r =>
        inRange (if (b =? 0xE0)%N then 0xA0 else 0x80)
                (if (b =? 0xED)%N then 0x9F else 0xBF) c1
        && inRange 0x80 0xBF c2 && validBytes r
      | _ => false
      end
    else if inRange 0xF0 0xF4 b then
      match rest with
      | c1 :: c2 :: c3 :: r =>
        inRange (if (b =? 0xF0)%N then 0x90 else 0x80)
                (if (b =? 0xF4)%N then 0x8F else 0xBF) c1
        && inRange 0x80 0xBF c2 && inRange 0x80 0xBF c3 && validBytes r
      | _ => false
      end
    else false
  end.

Definition utf8_ValidString (s : string) : bool := validBytes (bytes s).

(** [model.NameValidationScheme], a setting of the library. *)
Inductive ValidationScheme := LegacyValidation | UTF8Validation.

Definition isLetterOrUnderscore (b : N) : bool :=
  inRange 97 122 b || inRange 65 90 b || (b =? 95)%N.

(** [isValidLegacyRune], with [first] for [i == 0]. *)
Definition isValidLegacyRune (colon first : bool) (b : N) : bool :=
  isLetterOrUnderscore b || (colon && (b =? 58)%N)
  || (inRange 48 57 b && negb first).

Definition validLegacy (colon : bool) (s : string) : bool :=
  match bytes s with
  | [] => false
  | b :: rest =>
    isValidLegacyRune colon true b && forallb (isValidLegacyRune colon false) rest
  end.

Definition validUTF8Name (s : string) : bool :=
  negb (String.eqb s "") && utf8_ValidString s.

(** [model.IsValidMetricName] *)
Definition IsValidMetricName (scheme : ValidationScheme) (n : string) : bool :=
  match scheme with
  | LegacyValidation => validLegacy true n
  | UTF8Validation => validUTF8Name n
  end.

(** [checkLabelName]: a valid label name that does not begin with the
    reserved prefix. *)
Definition checkLabelName (scheme : ValidationScheme) (l : string) : bool :=
  match scheme with
  | LegacyValidation => validLegacy false l
  | UTF8Validation => validUTF8Name l
  end && negb (String.prefix "__" l).

(** [BuildFQName(namespace, "", name)] *)
Definition BuildFQName (namespace name : string) : string :=
  if String.eqb name "" then ""
  else if negb (String.eqb namespace "") then namespace ++ "_" ++ name
  else name.

Inductive DescError :=
| ErrInvalidMetricName (fq : string)
| ErrInvalidLabelName (l fq : string)
| ErrDuplicateLabelNames (fq : string).

Record Desc := {
  fqName : string;
  help : string;
  variableLabels : list string;
  err : option DescError
}.

(** [NewDesc] without constant labels. *)
Definition NewDesc (scheme : ValidationScheme) (fq hlp : string)
    (labels : list string) : Desc :=
  {| fqName := fq; help := hlp; variableLabels := labels;
     err :=
       if negb (IsValidMetricName scheme fq) then Some (ErrInvalidMetricName fq)
       else
         match find (λ l, negb (checkLabelName scheme l)) labels with
         | Some l => Some (ErrInvalidLabelName l fq)
         | None =>
           if bool_decide (NoDup labels) then None
           else Some (ErrDuplicateLabelNames fq)
         end |}.

(** A registry, as far as registration goes: the descriptors it holds. *)
Record Registry := { descs : list Desc }.

Definition NewRegistry : Registry := {| descs := [] |}.

Inductive RegisterError :=
| ErrDescInvalid (e : DescError)
| ErrAlreadyRegistered (fq : string).

(** [Registry.Register] of a collector with the one descriptor [d]. *)
Definition Register (r : Registry) (d : Desc) : Registry * option RegisterError :=
  match err d with
  | Some e => (r, Some (ErrDescInvalid e))
  | None =>
    if existsb (λ d', String.eqb (fqName d') (fqName d)) (descs r)
    then (r, Some (ErrAlreadyRegistered (fqName d)))
    else ({| descs := (descs r ++ [d])%list |}, None)
  end.

(** [MetricVec]: a descriptor and the children made so far. *)
Record MetricVec (A : Type) := {
  desc : Desc;
  children : gmap (list string) A
}.
Arguments desc {A} _.
Arguments children {A} _.

Definition NewMetricVec {A} (d : Desc) : MetricVec A :=
  {| desc := d; children := ∅ |}.

Inductive LabelError :=
| ErrLabelCardinality
| ErrLabelValueNotUTF8
| ErrLabelMissing (l : string).

(** [validateValuesInLabels] *)
Definition validateValuesInLabels (labels : GoMap) (expected : nat)
    : option LabelError :=
  if negb (Nat.eqb (mapLen labels) expected) then Some ErrLabelCardinality
  else if forallb (λ kv, utf8_ValidString kv.2) (map_to_list (default ∅ labels))
  then None else Some ErrLabelValueNotUTF8.

(** The values of the variable labels, in declaration order. *)
Fixpoint labelValues (names : list string) (labels : GoMap)
    : list string + LabelError :=
  match names with
  | [] => inl []
  | l :: rest =>
    match mapGet labels l with
    | None => inr (ErrLabelMissing l)
    | Some v =>
      match labelValues rest labels with
      | inl vs => inl (v :: vs)
      | inr e => inr e
      end
    end
  end.

(** [GetMetricWith]: the child for [labels], made from [new] when the
    combination is seen for the first time. Gives the child's key and
    the vector that holds it. *)
Definition GetMetricWith {A} (new : A) (v : MetricVec A) (labels : GoMap)
    : (list string * MetricVec A) + LabelError :=
  match validateValuesInLabels labels (length (variableLabels (desc v))) with
  | Some e => inr e
  | None =>
    match labelValues (variableLabels (desc v)) labels with
    | inr e => inr e
    | inl lvs =>
      match children v !! lvs with
      | Some _ => inl (lvs, v)
      | None => inl (lvs, {| desc := desc v; children := <[lvs := new]> (children v) |})
      end
    end
  end.

(** A method of a child: [f] applied to the child at [lvs]. *)
Definition onChild {A} (f : A → A) (lvs : list string) (v : MetricVec A)
    : MetricVec A :=
  {| desc := desc v; children := alter f lvs (children v) |}.

Definition GaugeVec := MetricVec float64.
Definition CounterVec := MetricVec float64.

Record HistogramVec := {
  histogramVec : MetricVec (list float64);
  histogramBuckets : list float64
}.

Record SummaryVec := {
  summaryVec : MetricVec (list float64);
  summaryObjectives : list (float64 * float64)
}.

(** [NewGaugeVec], [NewCounterVec], [NewHistogramVec], [NewSummaryVec]:
    the options' [Namespace], [Name] and [Help], then what the kind adds,
    then the label names. *)
Definition NewGaugeVec (scheme : ValidationScheme)
    (namespace name hlp : string) (labelNames : list string) : GaugeVec :=
  NewMetricVec (NewDesc scheme (BuildFQName namespace name) hlp labelNames).

Definition NewCounterVec (scheme : ValidationScheme)
    (namespace name hlp : string) (labelNames : list string) : CounterVec :=
  NewMetricVec (NewDesc scheme (BuildFQName namespace name) hlp labelNames).

Definition NewHistogramVec (scheme : ValidationScheme)
    (namespace name hlp : string) (buckets : list float64)
    (labelNames : list string) : HistogramVec :=
  {| histogramVec :=
       NewMetricVec (NewDesc scheme (BuildFQName namespace name) hlp labelNames);
     histogramBuckets := buckets |}.

Definition NewSummaryVec (scheme : ValidationScheme)
    (namespace name hlp : string) (objectives : list (float64 * float64))
    (labelNames : list string) : SummaryVec :=
  {| summaryVec :=
       NewMetricVec (NewDesc scheme (BuildFQName namespace name) hlp labelNames);
     summaryObjectives := objectives |}.

(** [Gauge.Set] on the child at [lvs]. *)
Definition Gauge_Set (value : float64) (lvs : list string) (v : GaugeVec)
    : GaugeVec :=
  onChild (λ _, value) lvs v.

(** [Counter.Add] on the child at [lvs]; [None] is its panic on a
    negative value. *)
Definition Counter_Add (value : float64) (lvs : list string) (v : CounterVec)
    : option CounterVec :=
  if PrimFloat.ltb value 0 then None
  else Some (onChild (λ old, PrimFloat.add old value) lvs v).

(** [Observer.Observe] on the child at [lvs]. *)
Definition Observe (value : float64) (lvs : list string)
    (v : MetricVec (list float64)) : MetricVec (list float64) :=
  onChild (λ obs, (obs ++ [value])%list) lvs v.

End prometheus.

(* ================================================================== *)
(** * Package collector *)
(* ================================================================== *)

Module collector.
Import config prometheus.

(** The errors of the package, one constructor per format string. *)
Inductive error :=
| ErrConfigNil
    (* "config cannot be nil" *)
| ErrRegisterGauge (name : string) (e : RegisterError)
    (* "failed to register gauge '%s': %w" *)
| ErrRegisterCounter (name : string) (e : RegisterError)
    (* "failed to register counter '%s': %w" *)
| ErrRegisterHistogram (name : string) (e : RegisterError)
    (* "failed to register histogram '%s': %w" *)
| ErrRegisterSummary (name : string) (e : RegisterError)
    (* "failed to register summary '%s': %w" *)
| ErrUnsupportedType (t : MetricType)
    (* "unsupported metric type: %s" *)
| ErrMetricNotFound (name : string)
    (* "metric '%s' not found" *)
| ErrGaugeNotFound (name : string)
    (* "gauge metric '%s' not found" *)
| ErrCounterNotFound (name : string)
    (* "counter metric '%s' not found" *)
| ErrHistogramNotFound (name : string)
    (* "histogram metric '%s' not found" *)
| ErrSummaryNotFound (name : string).
    (* "summary metric '%s' not found" *)

(** How a call ends: it returns a value, returns an error, or panics. *)
Inductive result (A : Type) :=
| Ok (a : A)
| Err (e : error)
| Panic (p : panic).
Arguments Ok {A} _.
Arguments Err {A} _.
Arguments Panic {A} _.

(** [MetricCollector]. The maps own the vectors; the mutex guards reads
    of the maps only and has no part in a sequential run. *)
Record MetricCollector := {
  config : Config;
  registry : Registry;
  gauges : gmap string GaugeVec;
  counters : gmap string CounterVec;
  histograms : gmap string HistogramVec;
  summaries : gmap string SummaryVec
}.

Definition Filler : string := "<missing>".

(** [slices.Contains] *)
Definition slices_Contains (l : list string) (key : string) : bool :=
  existsb (String.eqb key) l.

(** [maps.DeleteFunc]: deletes the entries [del] holds of; ranging over
    the nil map visits nothing. *)
Definition maps_DeleteFunc (m : GoMap) (del : string → string → bool) : GoMap :=
  filter (λ kv, negb (del kv.1 kv.2)) <$> m.

(** The first inner loop of [cleanLabels]: each declared label the map
    lacks is written with the filler, which the nil map does not allow. *)
Fixpoint fillMissing (declared : list string) (labels : GoMap) : result GoMap :=
  match declared with
  | [] => Ok labels
  | label :: rest =>
    match mapGet labels label with
    | Some _ => fillMissing rest labels
    | None =>
      match labels with
      | None => Panic PanicAssignNilMap
      | Some m => fillMissing rest (Some (<[label := Filler]> m))
      end
    end
  end.

(** The outer loop of [cleanLabels] over [c.config.Metrics]. The map is
    the caller's, changed in place, and returned. *)
Fixpoint cleanLabelsIn (metrics : list MetricConfig) (metricName : string)
    (labels : GoMap) : result GoMap :=
  match metrics with
  | [] => Err (ErrMetricNotFound metricName)
  | metricCfg :: rest =>
    if String.eqb (Name metricCfg) metricName then
      match fillMissing (Labels metricCfg) labels with
      | Ok labels =>
        Ok (maps_DeleteFunc labels
              (λ key _, negb (slices_Contains (Labels metricCfg) key)))
      | Err e => Err e
      | Panic p => Panic p
      end
    else cleanLabelsIn rest metricName labels
  end.

(** [func (c *MetricCollector) cleanLabels] *)
Definition cleanLabels (c : MetricCollector) (metricName : string)
    (labels : GoMap) : result GoMap :=
  cleanLabelsIn (Metrics (config c)) metricName labels.

Definition setRegistry (r : Registry) (c : MetricCollector) : MetricCollector :=
  {| config := config c; registry := r; gauges := gauges c;
     counters := counters c; histograms := histograms c;
     summaries := summaries c |}.

Definition setGauge (name : string) (v : GaugeVec) (c : MetricCollector)
    : MetricCollector :=
  {| config := config c; registry := registry c;
     gauges := <[name := v]> (gauges c); counters := counters c;
     histograms := histograms c; summaries := summaries c |}.

Definition setCounter (name : string) (v : CounterVec) (c : MetricCollector)
    : MetricCollector :=
  {| config := config c; registry := registry c; gauges := gauges c;
     counters := <[name := v]> (counters c); histograms := histograms c;
     summaries := summaries c |}.

Definition setHistogram (name : string) (v : HistogramVec) (c : MetricCollector)
    : MetricCollector :=
  {| config := config c; registry := registry c; gauges := gauges c;
     counters := counters c; histograms := <[name := v]> (histograms c);
     summaries := summaries c |}.

Definition setSummary (name : string) (v : SummaryVec) (c : MetricCollector)
    : MetricCollector :=
  {| config := config c; registry := registry c; gauges := gauges c;
     counters := counters c; histograms := histograms c;
     summaries := <[name := v]> (summaries c) |}.

Section Registration.

(** The name validation the library is set to. *)
Variable scheme : ValidationScheme.

(** [func (c *MetricCollector) registerMetric] *)
Definition registerMetric (c : MetricCollector) (metricCfg : MetricConfig)
    : MetricCollector * option error :=
  let namespace := Namespace (Global (config c)) in
  let metricName := Name metricCfg in
  if String.eqb (Typ metricCfg) MetricTypeGauge then
    let gaugeVec :=
      NewGaugeVec scheme namespace metricName (Description metricCfg)
                  (Labels metricCfg) in
    match Register (registry c) (desc gaugeVec) with
    | (r, Some e) => (setRegistry r c, Some (ErrRegisterGauge metricName e))
    | (r, None) => (setGauge metricName gaugeVec (setRegistry r c), None)
    end
  else if String.eqb (Typ metricCfg) MetricTypeCounter then
    let counterVec :=
      NewCounterVec scheme namespace metricName (Description metricCfg)
                    (Labels metricCfg) in
    match Register (registry c) (desc counterVec) with
    | (r, Some e) => (setRegistry r c, Some (ErrRegisterCounter metricName e))
    | (r, None) => (setCounter metricName counterVec (setRegistry r c), None)
    end
  else if String.eqb (Typ metricCfg) MetricTypeHistogram then
    let histogramVec :=
      NewHistogramVec scheme namespace metricName (Description metricCfg)
                      (Buckets metricCfg) (Labels metricCfg) in
    match Register (registry c) (desc (prometheus.histogramVec histogramVec)) with
    | (r, Some e) => (setRegistry r c, Some (ErrRegisterHistogram metricName e))
    | (r, None) => (setHistogram metricName histogramVec (setRegistry r c), None)
    end
  else if String.eqb (Typ metricCfg) MetricTypeSummary then
    let summaryVec :=
      NewSummaryVec scheme namespace metricName (Description metricCfg)
                    (Objectives metricCfg) (Labels metricCfg) in
    match Register (registry c) (desc (prometheus.summaryVec summaryVec)) with
    | (r, Some e) => (setRegistry r c, Some (ErrRegisterSummary metricName e))
    | (r, None) => (setSummary metricName summaryVec (setRegistry r c), None)
    end
  else (c, Some (ErrUnsupportedType (Typ metricCfg))).

(** The loop of [registerMetrics], over what is left of
    [c.config.Metrics]. *)
Fixpoint registerMetricsFrom (c : MetricCollector) (metrics : list MetricConfig)
    : MetricCollector * option error :=
  match metrics with
  | [] => (c, None)
  | metricCfg :: rest =>
    match registerMetric c metricCfg with
    | (c', Some e) => (c', Some e)
    | (c', None) => registerMetricsFrom c' rest
    end
  end.

(** [func (c *MetricCollector) registerMetrics] *)
Definition registerMetrics (c : MetricCollector) : MetricCollector * option error :=
  registerMetricsFrom c (Metrics (config c)).

(** [func NewMetricCollector]. [cfg] is a pointer, [None] when nil. The
    registry is the caller's: what it holds after the call is returned
    beside the result, also when the call fails. *)
Definition NewMetricCollector (cfg : option Config) (registry : Registry)
    : Registry * result MetricCollector :=
  match cfg with
  | None => (registry, Err ErrConfigNil)
  | Some cfg =>
    let collector :=
      {| config := cfg; registry := registry; gauges := ∅; counters := ∅;
         histograms := ∅; summaries := ∅ |} in
    match registerMetrics collector with
    | (c, Some e) => (collector.registry c, Err e)
    | (c, None) => (collector.registry c, Ok c)
    end
  end.

End Registration.

(** [func (c *MetricCollector) GetRegistry] *)
Definition GetRegistry (c : MetricCollector) : Registry := registry c.

(** [func (c *MetricCollector) UpdateGauge] *)
Definition UpdateGauge (c : MetricCollector) (name : string) (value : float64)
    (labels : GoMap) : MetricCollector * result unit :=
  match gauges c !! name with
  | None => (c, Err (ErrGaugeNotFound name))
  | Some gauge =>
    match cleanLabels c name labels with
    | Err e => (c, Err e)
    | Panic p => (c, Panic p)
    | Ok labelsWithFillers =>
      match GetMetricWith 0%float gauge labelsWithFillers with
      | inr _ => (c, Panic PanicInvalidLabels)
      | inl (lvs, gauge) => (setGauge name (Gauge_Set value lvs gauge) c, Ok ())
      end
    end
  end.

(** [func (c *MetricCollector) IncrementCounterBy]. [With] has made the
    child by the time [Add] refuses a negative value. *)
Definition IncrementCounterBy (c : MetricCollector) (name : string)
    (value : float64) (labels : GoMap) : MetricCollector * result unit :=
  match counters c !! name with
  | None => (c, Err (ErrCounterNotFound name))
  | Some counter =>
    match cleanLabels c name labels with
    | Err e => (c, Err e)
    | Panic p => (c, Panic p)
    | Ok labelsWithFillers =>
      match GetMetricWith 0%float counter labelsWithFillers with
      | inr _ => (c, Panic PanicInvalidLabels)
      | inl (lvs, counter) =>
        match Counter_Add value lvs counter with
        | None => (setCounter name counter c, Panic PanicCounterDecrease)
        | Some counter => (setCounter name counter c, Ok ())
        end
      end
    end
  end.

(** [func (c *MetricCollector) IncrementCounter] *)
Definition IncrementCounter (c : MetricCollector) (name : string)
    (labels : GoMap) : MetricCollector * result unit :=
  IncrementCounterBy c name 1%float labels.

(** [func (c *MetricCollector) ObserveHistogram] *)
Definition ObserveHistogram (c : MetricCollector) (name : string)
    (value : float64) (labels : GoMap) : MetricCollector * result unit :=
  match histograms c !! name with
  | None => (c, Err (ErrHistogramNotFound name))
  | Some histogram =>
    match cleanLabels c name labels with
    | Err e => (c, Err e)
    | Panic p => (c, Panic p)
    | Ok labelsWithFillers =>
      match GetMetricWith [] (histogramVec histogram) labelsWithFillers with
      | inr _ => (c, Panic PanicInvalidLabels)
      | inl (lvs, vec) =>
        (setHistogram name
           {| histogramVec := Observe value lvs vec;
              histogramBuckets := histogramBuckets histogram |} c, Ok ())
      end
    end
  end.

(** [func (c *MetricCollector) ObserveSummary] *)
Definition ObserveSummary (c : MetricCollector) (name : string)
    (value : float64) (labels : GoMap) : MetricCollector * result unit :=
  match summaries c !! name with
  | None => (c, Err (ErrSummaryNotFound name))
  | Some summary =>
    match cleanLabels c name labels with
    | Err e => (c, Err e)
    | Panic p => (c, Panic p)
    | Ok labelsWithFillers =>
      match GetMetricWith [] (summaryVec summary) labelsWithFillers with
      | inr _ => (c, Panic PanicInvalidLabels)
      | inl (lvs, vec) =>
        (setSummary name
           {| summaryVec := Observe value lvs vec;
              summaryObjectives := summaryObjectives summary |} c, Ok ())
      end
    end
  end.

(** ** Runs of the collector *)

(** The four kinds of aggregation, one per map of the collector. *)
Inductive Kind := Gauge | Counter | Histogram | Summary.

#[global] Instance Kind_eq_dec : EqDecision Kind.
Proof. solve_decision. Defined.

Definition typeOf (k : Kind) : MetricType :=
  match k with
  | Gauge => MetricTypeGauge
  | Counter => MetricTypeCounter
  | Histogram => MetricTypeHistogram
  | Summary => MetricTypeSummary
  end.

(** The descriptor held under [name] in the map of kind [k]. *)
Definition descAt (c : MetricCollector) (k : Kind) (name : string) : option Desc :=
  match k with
  | Gauge => desc <$> gauges c !! name
  | Counter => desc <$> counters c !! name
  | Histogram => (λ v, desc (histogramVec v)) <$> histograms c !! name
  | Summary => (λ v, desc (summaryVec v)) <$> summaries c !! name
  end.

Definition registeredAs (c : MetricCollector) (k : Kind) (name : string) : Prop :=
  is_Some (descAt c k name).

(** The update operation of a kind, and the error it returns when its
    map has no entry for the name. *)
Definition update (k : Kind)
    : MetricCollector → string → float64 → GoMap → MetricCollector * result unit :=
  match k with
  | Gauge => UpdateGauge
  | Counter => IncrementCounterBy
  | Histogram => ObserveHistogram
  | Summary => ObserveSummary
  end.

Definition notFound (k : Kind) (name : string) : error :=
  match k with
  | Gauge => ErrGaugeNotFound name
  | Counter => ErrCounterNotFound name
  | Histogram => ErrHistogramNotFound name
  | Summary => ErrSummaryNotFound name
  end.

(** A call of one of the exported update methods. *)
Inductive call :=
| CallUpdateGauge (name : string) (value : float64) (labels : GoMap)
| CallIncrementCounter (name : string) (labels : GoMap)
| CallIncrementCounterBy (name : string) (value : float64) (labels : GoMap)
| CallObserveHistogram (name : string) (value : float64) (labels : GoMap)
| CallObserveSummary (name : string) (value : float64) (labels : GoMap).

Definition exec (c : MetricCollector) (x : call) : MetricCollector * result unit :=
  match x with
  | CallUpdateGauge name value labels => UpdateGauge c name value labels
  | CallIncrementCounter name labels => IncrementCounter c name labels
  | CallIncrementCounterBy name value labels => IncrementCounterBy c name value labels
  | CallObserveHistogram name value labels => ObserveHistogram c name value labels
  | CallObserveSummary name value labels => ObserveSummary c name value labels
  end.

(** Calls made one after the other, each on the state the one before
    left; a call that panics ends alone (the HTTP server recovers it) and
    the next one runs. Gives the last state and every call's result. *)
Fixpoint run (c : MetricCollector) (calls : list call)
    : MetricCollector * list (result unit) :=
  match calls with
  | [] => (c, [])
  | x :: rest =>
    let '(c1, r) := exec c x in
    let '(c2, rs) := run c1 rest in
    (c2, r :: rs)
  end.

(** The label combination an update with [labels] lands on when
    [declared] are the metric's labels: the value given for each, the
    filler where none is. *)
Definition combination (declared : list string) (labels : GoMap) : list string :=
  (λ l, default Filler (mapGet labels l)) <$> declared.

(** The value a counter has accumulated for a combination: zero until
    the combination has been observed. *)
Definition counterValue (c : MetricCollector) (name : string)
    (combo : list string) : float64 :=
  default 0%float (counters c !! name ≫= λ v, children v !! combo).



(** ** Exposition *)

(** What the exposition shows of a vector: its descriptor, what its kind
    adds, and one sample per label combination. *)
Inductive MetricFamily :=
| GaugeFamily (d : Desc) (samples : list (list string * float64))
| CounterFamily (d : Desc) (samples : list (list string * float64))
| HistogramFamily (d : Desc) (buckets : list float64)
    (samples : list (list string * list float64))
| SummaryFamily (d : Desc) (objectives : list (float64 * float64))
    (samples : list (list string * list float64)).

(** [GetRegistry().Gather()], for the vectors the collector registered:
    the registry holds the very vectors the maps hold. *)
Definition Gather (c : MetricCollector) : list MetricFamily :=
  (((λ v, GaugeFamily (desc v) (map_to_list (children v)))
      <$> (map_to_list (gauges c)).*2)
   ++ ((λ v, CounterFamily (desc v) (map_to_list (children v)))
      <$> (map_to_list (counters c)).*2)
   ++ ((λ v, HistogramFamily (desc (histogramVec v)) (histogramBuckets v)
               (map_to_list (children (histogramVec v))))
      <$> (map_to_list (histograms c)).*2)
   ++ ((λ v, SummaryFamily (desc (summaryVec v)) (summaryObjectives v)
               (map_to_list (children (summaryVec v))))
      <$> (map_to_list (summaries c)).*2))%list.

(** ** What a built collector satisfies *)

(** The descriptor [registerMetric] builds for a definition. *)
Definition descOf (scheme : ValidationScheme) (cfg : Config) (m : MetricConfig)
    : Desc :=
  NewDesc scheme (BuildFQName (Namespace (Global cfg)) (Name m))
          (Description m) (Labels m).

(** The definitions [done] are registered in [c], and nothing else is. *)
Record Registered (scheme : ValidationScheme) (done : list MetricConfig)
    (c : MetricCollector) : Prop := {
  reg_names : NoDup (Name <$> done);
  reg_sound : ∀ k name d,
    descAt c k name = Some d →
    ∃ m, m ∈ done ∧ Name m = name ∧ Typ m = typeOf k
         ∧ d = descOf scheme (config c) m;
  reg_complete : ∀ m,
    m ∈ done →
    err (descOf scheme (config c) m) = None
    ∧ fqName (descOf scheme (config c) m) ∈ (fqName <$> descs (registry c))
    ∧ ∃ k, Typ m = typeOf k
           ∧ descAt c k (Name m) = Some (descOf scheme (config c) m);
  reg_buckets : ∀ name v,
    histograms c !! name = Some v →
    ∃ m, m ∈ done ∧ Name m = name ∧ histogramBuckets v = Buckets m;
  reg_objectives : ∀ name v,
    summaries c !! name = Some v →
    ∃ m, m ∈ done ∧ Name m = name ∧ summaryObjectives v = Objectives m
}.

(** Every definition of the collector's configuration is registered in
    it, and nothing else is. *)
Definition WellFormed (scheme : ValidationScheme) (c : MetricCollector) : Prop :=
  Registered scheme (Metrics (config c)) c.

(** ** Configurations that differ in gauge defaults only *)

(** Two definitions alike in everything but, for a gauge, the
    [DefaultValue]. *)
Definition sameButDefault (m1 m2 : MetricConfig) : Prop :=
  Name m1 = Name m2 ∧ Description m1 = Description m2 ∧ Typ m1 = Typ m2
  ∧ Labels m1 = Labels m2 ∧ Buckets m1 = Buckets m2
  ∧ Objectives m1 = Objectives m2
  ∧ (Typ m1 ≠ MetricTypeGauge → DefaultValue m1 = DefaultValue m2).

Definition sameButGaugeDefaults (cfg1 cfg2 : Config) : Prop :=
  Global cfg1 = Global cfg2 ∧ Web_ cfg1 = Web_ cfg2
  ∧ Forall2 sameButDefault (Metrics cfg1) (Metrics cfg2).

(** Two collectors with the same registry and the same four maps, and
    so the same aggregations in the same state. *)
Definition sameAggregations (c1 c2 : MetricCollector) : Prop :=
  registry c1 = registry c2 ∧ gauges c1 = gauges c2
  ∧ counters c1 = counters c2 ∧ histograms c1 = histograms c2
  ∧ summaries c1 = summaries c2.

(** ** What the specification describes and the code does not have *)






(** The definition [cleanLabels] settles on for a name: the first of the
    configuration that bears it. *)
Definition definitionOf (cfg : Config) (name : string) : option MetricConfig :=
  find (λ d, String.eqb (Name d) name) (Metrics cfg).

(** The label map the specification has normalization return: the
    declared labels and nothing else, each with its input value, or with
    the filler where the input has none. *)
Definition normalized (declared : list string) (input : gmap string string)
    : gmap string string :=
  list_to_map ((λ l, (l, default Filler (input !! l))) <$> declared).

End collector.

(* ================================================================== *)
(** * The configuration shipped with the repository *)
(* ================================================================== *)

(** [config.yml], and the collector [Serve] builds from it over a new
    registry. *)
Module example.
Import config prometheus collector.

Definition jobLastSuccess : MetricConfig :=
  {| Name := "job_last_success";
     Description := "Timestamp of the last successful job execution";
     Typ := "gauge"; Labels := ["job_name"; "environment"];
     DefaultValue := 0; Buckets := []; Objectives := [] |}.

Definition jobDurationSeconds : MetricConfig :=
  {| Name := "job_duration_seconds";
     Description := "Duration of job execution in seconds";
     Typ := "histogram"; Labels := ["job_name"; "environment"];
     DefaultValue := 0;
     Buckets := [0x1.999999999999ap-4; 0.5; 1; 5; 10; 30; 60; 300; 600]%float;
     Objectives := [] |}.

Definition jobFailuresTotal : MetricConfig :=
  {| Name := "job_failures_total";
     Description := "Total number of job failures";
     Typ := "counter"; Labels := ["job_name"; "environment"; "error_type"];
     DefaultValue := 0; Buckets := []; Objectives := [] |}.

Definition cfg : Config :=
  {| Global := {| Namespace := "cron_monitor"; RefreshInterval := "30s";
                  parsedInterval := 0 |};
     Metrics := [jobLastSuccess; jobDurationSeconds; jobFailuresTotal];
     Web_ := {| Address := ":8080" |} |}.

Definition empty (cfg : Config) : MetricCollector :=
  {| config := cfg; registry := NewRegistry; gauges := ∅; counters := ∅;
     histograms := ∅; summaries := ∅ |}.

(** The collector built from [cfg]; when the build fails, the collector
    without metrics. *)
Definition build (scheme : ValidationScheme) (cfg : Config) : MetricCollector :=
  match (NewMetricCollector scheme (Some cfg) NewRegistry).2 with
  | Ok c => c
  | _ => empty cfg
  end.

Definition collector : MetricCollector := build LegacyValidation cfg.


(** A summary with objectives, and one that defines none. *)
Definition jobLatency : MetricConfig :=
  {| Name := "job_latency"; Description := "Latency of the job";
     Typ := "summary"; Labels := ["job_name"]; DefaultValue := 0;
     Buckets := []; Objectives := [(0.5, 0x1.999999999999ap-5)]%float |}.


(** [job_last_success] with another default. *)
Definition jobLastSuccess' : MetricConfig :=
  {| Name := "job_last_success";
     Description := "Timestamp of the last successful job execution";
     Typ := "gauge"; Labels := ["job_name"; "environment"];
     DefaultValue := 42; Buckets := []; Objectives := [] |}.

Definition withMetrics (metrics : list MetricConfig) : Config :=
  {| Global := Global cfg; Metrics := metrics; Web_ := Web_ cfg |}.

End example.

(* ================================================================== *)
(** * More of packages config and prometheus *)
(* ================================================================== *)

(** [LoadConfig], the rest of package config. *)
Module config_load.
Import config.

(** The errors of [LoadConfig]: the two it wraps, and those of
    [Config.Validate], which it returns as they are. *)
Inductive error :=
| ErrReadingConfigFile
    (* "error reading config file: %w" *)
| ErrParsingConfigFile
    (* "error parsing config file: %w" *)
| ErrInvalid (e : config.error).

Section WithFiles.

(** [os.ReadFile]: the content of the file, [None] when it cannot be read. *)
Variable os_ReadFile : string → option string.

(** [yaml.Unmarshal(data, &config)]: the configuration after decoding
    [data] into it, [None] when [data] does not decode. *)
Variable yaml_Unmarshal : string → Config → option Config.

(** [time.ParseDuration] *)
Variable time_ParseDuration : string → option Z.

(** [func LoadConfig(filename string)], which returns the configuration
    or an error. *)
Definition LoadConfig (filename : string) : Config + error :=
  match os_ReadFile filename with
  | None => inr ErrReadingConfigFile
  | Some data =>
    let config :=
      {| Global := {| Namespace := ""; RefreshInterval := ""; parsedInterval := 0 |};
         Metrics := [];
         Web_ := {| Address := ":8080" |} |} in
    match yaml_Unmarshal data config with
    | None => inr ErrParsingConfigFile
    | Some config =>
      match Config_Validate time_ParseDuration config with
      | (_, Some e) => inr (ErrInvalid e)
      | (config, None) => inl config
      end
    end
  end.

End WithFiles.

End config_load.

(** [MustRegister] and [WithLabelValues], which [Serve] calls. *)
Module prometheus_values.
Import prometheus.

(** [validateLabelValues] *)
Definition validateLabelValues (vals : list string) (expected : nat)
    : option LabelError :=
  if negb (Nat.eqb (length vals) expected) then Some ErrLabelCardinality
  else if forallb utf8_ValidString vals then None
  else Some ErrLabelValueNotUTF8.

(** [GetMetricWithLabelValues]: the child for the values given in the
    order of the variable labels. *)
Definition GetMetricWithLabelValues {A} (new : A) (v : MetricVec A)
    (lvs : list string) : (list string * MetricVec A) + LabelError :=
  match validateLabelValues lvs (length (variableLabels (desc v))) with
  | Some e => inr e
  | None =>
    match children v !! lvs with
    | Some _ => inl (lvs, v)
    | None => inl (lvs, {| desc := desc v; children := <[lvs := new]> (children v) |})
    end
  end.

End prometheus_values.

(* ================================================================== *)
(** * Reading the state of a collector *)
(* ================================================================== *)

Module views.
Import prometheus collector.

(** The value a gauge holds for a combination, if it has been set. *)
Definition gaugeValue (c : MetricCollector) (name : string)
    (combo : list string) : option float64 :=
  gauges c !! name ≫= λ v, children v !! combo.

(** What a histogram, or a summary, has observed for a combination, in
    order. *)
Definition histogramObservations (c : MetricCollector) (name : string)
    (combo : list string) : list float64 :=
  default [] (histograms c !! name ≫= λ v, children (histogramVec v) !! combo).

Definition summaryObservations (c : MetricCollector) (name : string)
    (combo : list string) : list float64 :=
  default [] (summaries c !! name ≫= λ v, children (summaryVec v) !! combo).

(** How an update of a registered metric ends, read off its kind, the
    labels the metric declares, the value and the label map: the nil map
    cannot take a filler, [With] wants valid UTF-8 for every declared
    label, and a counter refuses a negative value. *)
Definition outcomeOf (k : Kind) (declared : list string) (value : float64)
    (labels : GoMap) : result unit :=
  match labels, declared with
  | None, _ :: _ => Panic PanicAssignNilMap
  | _, _ =>
    if forallb utf8_ValidString (combination declared labels) then
      if bool_decide (k = Counter) && PrimFloat.ltb value 0
      then Panic PanicCounterDecrease else Ok ()
    else Panic PanicInvalidLabels
  end.

(** A vector with the child at a combination set. *)
Definition withChild {A} (v : MetricVec A) (combo : list string) (x : A)
    : MetricVec A :=
  {| desc := desc v; children := <[combo := x]> (children v) |}.

(** Registration makes every vector without a child. *)
Definition childless (c : MetricCollector) : Prop :=
  (∀ n v, gauges c !! n = Some v → children v = ∅)
  ∧ (∀ n v, counters c !! n = Some v → children v = ∅)
  ∧ (∀ n v, histograms c !! n = Some v → children (histogramVec v) = ∅)
  ∧ (∀ n v, summaries c !! n = Some v → children (summaryVec v) = ∅).

End views.

(* ================================================================== *)
(** * Package web *)
(* ================================================================== *)

Module web.
Import config prometheus collector.

(** [MetricUpdate], as decoded from the body of a request. *)
Record MetricUpdate := {
  Name : string;
  Typ : string;
  Value : float64;
  Labels : GoMap
}.

(** What the handler reads of a request: the method, and the body,
    [None] when reading it fails. *)
Record Request := {
  Method : string;
  Body : option string
}.

(** The text of a response, one constructor per text the handler
    writes. *)
Inductive message :=
| MsgMethodNotAllowed
    (* "Method not allowed" *)
| MsgErrorReadingBody
    (* "Error reading request body" *)
| MsgErrorParsingJSON
    (* "Error parsing JSON" *)
| MsgNameRequired
    (* "Metric name is required" *)
| MsgInvalidType (name : string)
    (* the error of [ParseMetricType], for the text it was given *)
| MsgUnsupportedType (name : string)
    (* "Unsupported metric type: %s" *)
| MsgUpdateError (e : collector.error)
    (* the error of the update operation *)
| MsgSuccess.
    (* the JSON object with [status] set to [success] *)

Record Response := {
  StatusCode : nat;
  Message : message
}.

Definition StatusOK : nat := 200.
Definition StatusBadRequest : nat := 400.
Definition StatusMethodNotAllowed : nat := 405.

(** [http.Error(w, msg, code)] *)
Definition http_Error (msg : message) (code : nat) : Response :=
  {| StatusCode := code; Message := msg |}.

Section WithDecoders.

(** [json.Unmarshal(body, &update)]: [None] when the body does not
    decode. *)
Variable json_Unmarshal : string → option MetricUpdate.

(** [config.ParseMetricType], which the enum generator writes: the
    metric type a text names, [None] for its error. *)
Variable ParseMetricType : string → option MetricType.

(** [func (h *MetricHandler) PushHandler]. Gives the collector as the
    request leaves it and the response written, or the panic that ends
    the request. *)
Definition PushHandler (c : MetricCollector) (r : Request)
    : MetricCollector * (Response + panic) :=
  if negb (String.eqb (Method r) "POST")
  then (c, inl (http_Error MsgMethodNotAllowed StatusMethodNotAllowed))
  else
    match Body r with
    | None => (c, inl (http_Error MsgErrorReadingBody StatusBadRequest))
    | Some body =>
      match json_Unmarshal body with
      | None => (c, inl (http_Error MsgErrorParsingJSON StatusBadRequest))
      | Some update =>
        if String.eqb (Name update) ""
        then (c, inl (http_Error MsgNameRequired StatusBadRequest))
        else
          match ParseMetricType (Typ update) with
          | None =>
            (c, inl (http_Error (MsgInvalidType (Typ update)) StatusBadRequest))
          | Some metricType =>
            let call (op : MetricCollector → string → float64 → GoMap
                           → MetricCollector * result unit) :=
              match op c (Name update) (Value update) (Labels update) with
              | (c', Ok _) =>
                (c', inl {| StatusCode := StatusOK; Message := MsgSuccess |})
              | (c', Err updateErr) =>
                (c', inl (http_Error (MsgUpdateError updateErr) StatusBadRequest))
              | (c', Panic p) => (c', inr p)
              end in
            if String.eqb metricType MetricTypeGauge then call UpdateGauge
            else if String.eqb metricType MetricTypeCounter then call IncrementCounterBy
            else if String.eqb metricType MetricTypeHistogram then call ObserveHistogram
            else if String.eqb metricType MetricTypeSummary then call ObserveSummary
            else
              (c, inl (http_Error (MsgUnsupportedType (Typ update))
                                  StatusBadRequest))
          end
      end
    end.

End WithDecoders.

End web.

(* ================================================================== *)
(** * Package commands *)
(* ================================================================== *)

Module commands.
Import config prometheus prometheus_values collector.

Record FlagsPush := {
  URL : string;
  Name : string;
  Typ : string;
  Labels : list string;
  Value : float64
}.

Record FlagsServe := {
  ConfigFile : string;
  Version : string;
  Commit : string;
  Date : string
}.

Inductive error :=
| ErrInvalidMetricType (t : string)
    (* "invalid metric type: %s" *)
| ErrInvalidLabelFormat (label : string)
    (* "invalid label format: %s (expected key=value)" *)
| ErrMarshal
    (* "failed to marshal update: %w" *)
| ErrCreateRequest
    (* "failed to create request: %w" *)
| ErrSendRequest
    (* "failed to send request: %w" *)
| ErrUnexpectedStatus (code : nat)
    (* "unexpected status code: %d" *)
| ErrLoadingConfiguration (e : config_load.error)
    (* "error loading configuration: %w" *)
| ErrInitializingCollector (e : collector.error).
    (* "error initializing metric collector: %w" *)

(** [isValidMetricType], with its map literal. *)
Definition validTypes : gmap string bool :=
  {[ "gauge" := true; "counter" := true; "histogram" := true;
     "summary" := true ]}.

Definition isValidMetricType (metricType : string) : bool :=
  default false (validTypes !! metricType).

Definition equalsSign : Ascii.ascii := Ascii.ascii_of_N 61.

(** Whether a text has the byte [=]. *)
Fixpoint hasEqualsSign (s : string) : bool :=
  match s with
  | EmptyString => false
  | String c rest => Ascii.eqb c equalsSign || hasEqualsSign rest
  end.

(** The loop of [parseLabel]: [pending] is what [range] has still to
    visit and [i] its index in [label]. A byte [=] is a rune of its own
    wherever it stands, so the loop over runes stops where the loop over
    bytes does. *)
Fixpoint parseLabelFrom (label : string) (i : nat) (pending : string)
    : string * string * bool :=
  match pending with
  | EmptyString => ("", "", false)
  | String c rest =>
    if Ascii.eqb c equalsSign
    then (String.substring 0 i label,
          String.substring (S i) (String.length label - S i) label, true)
    else parseLabelFrom label (S i) rest
  end.

(** [func parseLabel(label string) (string, string, bool)] *)
Definition parseLabel (label : string) : string * string * bool :=
  parseLabelFrom label 0 label.

(** The loop of [Push] over [flags.Labels], filling the map it made. *)
Fixpoint parseLabels (flagsLabels : list string) (labels : gmap string string)
    : gmap string string + error :=
  match flagsLabels with
  | [] => inl labels
  | label :: rest =>
    match parseLabel label with
    | (key, val, true) => parseLabels rest (<[key := val]> labels)
    | (_, _, false) => inr (ErrInvalidLabelFormat label)
    end
  end.

Section WithNetwork.

(** [http.NewRequestWithContext] for a POST to the URL: whether the
    request can be made. *)
Variable http_NewRequest : string → bool.

(** [client.Do]: the status code of the response to the update posted to
    the URL, [None] when no response comes. *)
Variable client_Do : string → web.MetricUpdate → option nat.

(** [json.Marshal] of an update fails on a value JSON has no number
    for. *)
Definition marshals (update : web.MetricUpdate) : bool :=
  negb (PrimFloat.is_nan (web.Value update)
        || PrimFloat.is_infinity (web.Value update)).

(** [func sendMetricUpdate]. Gives the updates posted, in order, and the
    error. *)
Definition sendMetricUpdate (url : string) (update : web.MetricUpdate)
    : list (string * web.MetricUpdate) * option error :=
  if negb (marshals update) then ([], Some ErrMarshal)
  else if negb (http_NewRequest url) then ([], Some ErrCreateRequest)
  else
    match client_Do url update with
    | None => ([(url, update)], Some ErrSendRequest)
    | Some code =>
      if negb (Nat.eqb code web.StatusOK)
      then ([(url, update)], Some (ErrUnexpectedStatus code))
      else ([(url, update)], None)
    end.

(** [func Push(ctx context.Context, flags FlagsPush) error] *)
Definition Push (flags : FlagsPush)
    : list (string * web.MetricUpdate) * option error :=
  if negb (isValidMetricType (Typ flags))
  then ([], Some (ErrInvalidMetricType (Typ flags)))
  else
    match parseLabels (Labels flags) ∅ with
    | inr e => ([], Some e)
    | inl labels =>
      let update :=
        {| web.Name := Name flags; web.Typ := Typ flags;
           web.Value := Value flags; web.Labels := Some labels |} in
      sendMetricUpdate (URL flags) update
    end.

End WithNetwork.

(** The package variable [buildInfo]. *)
Definition buildInfo (scheme : ValidationScheme) : GaugeVec :=
  NewGaugeVec scheme "" "cronprom_build_info"
              "Build information about the application"
              ["version"; "commit_hash"; "build_time"].

(** How [Serve] stands when it starts the HTTP server: with an error
    returned, with a panic, or with a collector and the build
    information to serve at an address. *)
Inductive served :=
| ServeError (e : error)
| ServePanic
| Serving (coll : MetricCollector) (info : GaugeVec) (address : string).

Section WithFiles.

Variable os_ReadFile : string → option string.
Variable yaml_Unmarshal : string → Config → option Config.
Variable time_ParseDuration : string → option Z.
Variable scheme : ValidationScheme.

(** [func Serve(ctx context.Context, flags FlagsServe) error], up to the
    start of the HTTP server. [MustRegister] and [WithLabelValues] panic
    on the errors of [Register] and [GetMetricWithLabelValues]. *)
Definition Serve (flags : FlagsServe) : served :=
  match config_load.LoadConfig os_ReadFile yaml_Unmarshal time_ParseDuration
                               (ConfigFile flags) with
  | inr e => ServeError (ErrLoadingConfiguration e)
  | inl cfg =>
    match NewMetricCollector scheme (Some cfg) NewRegistry with
    | (_, Err e) => ServeError (ErrInitializingCollector e)
    | (_, Panic _) => ServePanic
    | (_, Ok coll) =>
      match Register (registry coll) (desc (buildInfo scheme)) with
      | (_, Some _) => ServePanic
      | (registry, None) =>
        match GetMetricWithLabelValues 0%float (buildInfo scheme)
                [Version flags; Commit flags; Date flags] with
        | inr _ => ServePanic
        | inl (lvs, info) =>
          Serving (setRegistry registry coll) (Gauge_Set 1 lvs info)
                  (Address (Web_ cfg))
        end
      end
    end
  end.

End WithFiles.

End commands.

(* ================================================================== *)
(** * Package main *)
(* ================================================================== *)

Module main.

(** [func build() string], of the package variables [version], [commit]
    and [date]. *)
Definition build (version commit date : string) : string :=
  let short :=
    if Nat.ltb 7 (String.length commit) then String.substring 0 7 commit
    else commit in
  version ++ " (" ++ short ++ ") " ++ date.

End main.

(* ================================================================== *)
(** * Validation of the metric definitions *)
(* ================================================================== *)

Module validation.
Import config.

#[local] Instance list_nil_dec {A} (l : list A) : Decision (l = []).
Proof. destruct l; [left | right]; done. Defined.

Lemma length_eqb_0 {A} (l : list A) : Nat.eqb (length l) 0 = bool_decide (l = []).
Proof. by destruct l. Qed.

(** [MetricConfig.Validate] rejects exactly the invalid definitions, with
    the error the specification gives. *)
Lemma MetricConfig_Validate_spec (m : MetricConfig) :
  match MetricConfig_Validate m with
  | Some e => invalid m ∧ e = specError m
  | None => ¬ invalid m ∧ specError m = ErrDuplicateName (Name m)
  end.
Proof.
  unfold MetricConfig_Validate, specError, invalid, knownType.
  rewrite !length_eqb_0.
  destruct (String.eqb_spec (Name m) "") as [Hn|Hn].
  { rewrite bool_decide_eq_true_2 by done. auto. }
  rewrite (bool_decide_eq_false_2 (Name m = "")) by done.
  destruct (String.eqb_spec (Typ m) MetricTypeGauge) as [Hg|Hg].
  { rewrite Hg. cbn. split; [|done]. intros [?|[[? _]|[[? _]|Hk]]]; try done.
    apply Hk. auto. }
  destruct (String.eqb_spec (Typ m) MetricTypeCounter) as [Hc|Hc].
  { rewrite Hc. cbn. split; [|done]. intros [?|[[? _]|[[? _]|Hk]]]; try done.
    apply Hk. auto. }
  cbn [orb].
  destruct (String.eqb_spec (Typ m) MetricTypeHistogram) as [Hh|Hh].
  { rewrite Hh. destruct (Buckets m) as [|b bs] eqn:Hb; cbn.
    - auto.
    - split; [|done]. intros [?|[[_ ?]|[[? _]|Hk]]]; try done. apply Hk. auto. }
  rewrite (bool_decide_eq_false_2 (_ ∧ Buckets m = [])) by (intros [? _]; done).
  destruct (String.eqb_spec (Typ m) MetricTypeSummary) as [Hs|Hs].
  { rewrite Hs. destruct (Objectives m) as [|o os] eqn:Ho; cbn.
    - auto 6.
    - split; [|done]. intros [?|[[? _]|[[_ ?]|Hk]]]; try done. apply Hk. auto. }
  rewrite (bool_decide_eq_false_2 (_ ∧ Objectives m = [])) by (intros [? _]; done).
  rewrite bool_decide_eq_false_2 by (intros [?|[?|[?|?]]]; done).
  split; [|done]. right; right; right. intros [?|[?|[?|?]]]; done.
Qed.

(** The loop invariant: [seen] is what the loop has passed, none of it
    offending, and [metricNames] holds exactly its names. *)
Lemma validateLoop_spec (metrics pending seen : list MetricConfig)
    (metricNames : gmap string bool) :
  metrics = (seen ++ pending)%list →
  (∀ n, default false (metricNames !! n) = true ↔ n ∈ Name <$> seen) →
  (∀ j, j < length seen → ¬ offending metrics j) →
  (validateLoop metricNames (length seen) pending metrics).1 = metrics
  ∧ match (validateLoop metricNames (length seen) pending metrics).2 with
    | None => ∀ j, ¬ offending metrics j
    | Some e =>
      ∃ k m, metrics !! k = Some m ∧ offending metrics k
             ∧ (∀ j, j < k → ¬ offending metrics j) ∧ e = specError m
    end.
Proof.
  revert seen metricNames.
  induction pending as [|metric rest IH]; intros seen names -> Hnames Hseen.
  - cbn. split; [done|]. intros j Hoff. apply (Hseen j); [|done].
    destruct Hoff as (m & Hj & _). apply lookup_lt_Some in Hj.
    by rewrite app_nil_r in Hj.
  - assert (Hhere : (seen ++ metric :: rest)%list !! length seen = Some metric)
      by apply list_lookup_middle, eq_refl.
    cbn [validateLoop].
    pose proof (MetricConfig_Validate_spec metric) as Hv.
    destruct (MetricConfig_Validate metric) as [e|].
    { destruct Hv as [Hinv ->]. cbn. split; [done|].
      exists (length seen), metric. repeat split; try done.
      exists metric. auto. }
    destruct Hv as [Hvalid Herr].
    destruct (default false (names !! Name metric)) eqn:Hd.
    { cbn. split; [done|].
      apply Hnames, list_elem_of_fmap in Hd as (m' & Hname & Hin).
      apply list_elem_of_lookup in Hin as (j & Hj).
      exists (length seen), metric. repeat split; try done.
      exists metric. split; [done|]. right. exists j, m'.
      split; [by eapply lookup_lt_Some|].
      split; [by apply lookup_app_l_Some|done]. }
    rewrite list_insert_id by done.
    replace (S (length seen)) with (length (seen ++ [metric])%list)
      by (rewrite length_app; cbn; lia).
    apply IH.
    + by rewrite <- app_assoc.
    + intros n. rewrite fmap_app, elem_of_app, <- Hnames. cbn.
      rewrite list_elem_of_singleton.
      destruct (decide (n = Name metric)) as [->|Hne].
      * rewrite lookup_insert_eq. cbn. split; auto.
      * rewrite lookup_insert_ne by done. split; [auto|]. by intros [?|?].
    + intros j Hj. rewrite length_app in Hj. cbn in Hj.
      destruct (decide (j = length seen)) as [->|Hne];
        [|apply Hseen; lia].
      intros (m & Hm & [Hinv|(j' & m' & Hlt & Hj' & Hname)]).
      * rewrite Hhere in Hm. by simplify_eq.
      * rewrite Hhere in Hm. simplify_eq.
        rewrite lookup_app_l in Hj' by done.
        assert (default false (names !! Name m) = true); [|congruence].
        apply Hnames, list_elem_of_fmap. exists m'.
        split; [done|]. by eapply list_elem_of_lookup_2.
Qed.

Lemma validateMetrics_spec (metrics : list MetricConfig) :
  (validateMetrics metrics).1 = metrics
  ∧ match (validateMetrics metrics).2 with
    | None => ∀ j, ¬ offending metrics j
    | Some e =>
      ∃ k m, metrics !! k = Some m ∧ offending metrics k
             ∧ (∀ j, j < k → ¬ offending metrics j) ∧ e = specError m
    end.
Proof.
  apply (validateLoop_spec metrics metrics [] ∅).
  - done.
  - intros n. rewrite lookup_empty. cbn. split; [done|]. by intros ?%elem_of_nil.
  - cbn. lia.
Qed.

(** C3. Validation contract: validating a sequence of definitions leaves
    the sequence as it was, passes exactly when no definition offends
    (none is invalid by itself, none repeats an earlier name), and
    otherwise reports the error of the first offending definition. *)
Theorem validation_contract (metrics : list MetricConfig) :
  (validateMetrics metrics).1 = metrics
  ∧ ((validateMetrics metrics).2 = None ↔ ∀ i, ¬ offending metrics i)
  ∧ (∀ e, (validateMetrics metrics).2 = Some e ↔
       ∃ i m, metrics !! i = Some m ∧ offending metrics i
              ∧ (∀ j, j < i → ¬ offending metrics j) ∧ e = specError m).
Proof.
  destruct (validateMetrics_spec metrics) as [Hpure Hres].
  split; [done|].
  destruct (validateMetrics metrics).2 as [e|].
  - destruct Hres as (k & m & Hk & Hoff & Hfirst & ->). split.
    + split; [done|]. intros Hnone. by destruct (Hnone k).
    + intros e. split.
      * intros [= <-]. eauto 10.
      * intros (i & m' & Hi & Hoff' & Hfirst' & ->).
        destruct (Nat.lt_trichotomy i k) as [Hlt|[->|Hgt]].
        -- by destruct (Hfirst i).
        -- by simplify_eq.
        -- by destruct (Hfirst' k).
  - split; [done|]. intros e. split; [done|].
    intros (i & _ & _ & Hoff & _). by destruct (Hres i).
Qed.

(** With global settings that pass, [Config.Validate] returns what the
    loop over the definitions returns, and leaves the definitions as they
    were. *)
Lemma Config_Validate_metrics (parse : string → option Z) (c : Config) :
  Namespace (Global c) ≠ "" →
  (ParsedRefreshInterval parse (Global c)).2.2 = None →
  (Config_Validate parse c).2 = (validateMetrics (Metrics c)).2
  ∧ Metrics (Config_Validate parse c).1 = Metrics c.
Proof.
  intros Hns Hparse. unfold Config_Validate.
  destruct (String.eqb_spec (Namespace (Global c)) ""); [done|].
  destruct (ParsedRefreshInterval parse (Global c)) as [g [d err]].
  cbn in Hparse. subst err.
  pose proof (validateMetrics_spec (Metrics c)) as [Hp _].
  destruct (validateMetrics (Metrics c)) as [ms e]. by cbn in *.
Qed.

End validation.

(* ================================================================== *)
(** * Label normalization *)
(* ================================================================== *)

Module labels.
Import config prometheus collector.

Lemma slices_Contains_true (l : list string) (key : string) :
  slices_Contains l key = true ↔ key ∈ l.
Proof.
  unfold slices_Contains. rewrite existsb_exists. split.
  - intros (x & Hin & ->%String.eqb_eq). by apply list_elem_of_In.
  - intros Hin. exists key. split; [by apply list_elem_of_In|apply String.eqb_refl].
Qed.

Lemma normalized_lookup (declared : list string) (input : gmap string string)
    (k : string) :
  normalized declared input !! k
  = if decide (k ∈ declared) then Some (default Filler (input !! k)) else None.
Proof.
  unfold normalized. induction declared as [|l declared IH]; cbn.
  - rewrite lookup_empty. by rewrite decide_False by apply not_elem_of_nil.
  - destruct (decide (k = l)) as [->|Hne].
    + rewrite lookup_insert_eq. by rewrite decide_True by left.
    + rewrite lookup_insert_ne, IH by done.
      destruct (decide (k ∈ declared)) as [Hin|Hin].
      * by rewrite decide_True by (by right).
      * rewrite decide_False; [done|]. by intros [?|?]%elem_of_cons.
Qed.

(** The key set of a normalized map is the set of declared labels. *)
Lemma normalized_dom (declared : list string) (input : gmap string string) :
  dom (normalized declared input) = list_to_set declared.
Proof.
  apply set_eq. intros k.
  rewrite elem_of_dom, normalized_lookup, elem_of_list_to_set.
  destruct (decide (k ∈ declared)); split; try done; by intros [? ?].
Qed.

(** On a map that is not nil, the first loop only adds the filler under
    the declared labels the map lacks. *)
Lemma fillMissing_map (declared : list string) (m : gmap string string) :
  ∃ m', fillMissing declared (Some m) = Ok (Some m')
        ∧ ∀ k, m' !! k = match m !! k with
                         | Some v => Some v
                         | None => if decide (k ∈ declared) then Some Filler else None
                         end.
Proof.
  revert m. induction declared as [|l declared IH]; intros m; cbn.
  - exists m. split; [done|]. intros k. destruct (m !! k); [done|].
    by rewrite decide_False by apply not_elem_of_nil.
  - destruct (m !! l) as [v|] eqn:Hl.
    + destruct (IH m) as (m' & -> & Hm'). exists m'. split; [done|].
      intros k. rewrite Hm'. destruct (m !! k) eqn:Hk; [done|].
      destruct (decide (k ∈ declared)) as [Hin|Hin].
      * by rewrite decide_True by (by right).
      * rewrite decide_False; [done|].
        intros [->|?]%elem_of_cons; [congruence|done].
    + destruct (IH (<[l := Filler]> m)) as (m' & -> & Hm').
      exists m'. split; [done|]. intros k. rewrite Hm'.
      destruct (decide (k = l)) as [->|Hne].
      * rewrite lookup_insert_eq, Hl. by rewrite decide_True by left.
      * rewrite lookup_insert_ne by done. destruct (m !! k); [done|].
        destruct (decide (k ∈ declared)) as [Hin|Hin].
        -- by rewrite decide_True by (by right).
        -- rewrite decide_False; [done|]. by intros [?|?]%elem_of_cons.
Qed.

(** The nil map passes the first loop only when nothing is declared. *)
Lemma fillMissing_nil (declared : list string) :
  fillMissing declared None
  = match declared with [] => Ok None | _ => Panic PanicAssignNilMap end.
Proof. by destruct declared. Qed.

(** The outer loop stops at the first definition that bears the name. *)
Lemma cleanLabelsIn_find (metrics : list MetricConfig) (name : string)
    (labels : GoMap) :
  cleanLabelsIn metrics name labels
  = match find (λ d, String.eqb (Name d) name) metrics with
    | None => Err (ErrMetricNotFound name)
    | Some d =>
      match fillMissing (Labels d) labels with
      | Ok labels =>
        Ok (maps_DeleteFunc labels (λ key _, negb (slices_Contains (Labels d) key)))
      | Err e => Err e
      | Panic p => Panic p
      end
    end.
Proof.
  induction metrics as [|d metrics IH]; cbn; [done|].
  by destruct (String.eqb (Name d) name).
Qed.

(** What [cleanLabels] does, case by case. *)
Lemma cleanLabels_spec (c : MetricCollector) (name : string) (labels : GoMap) :
  cleanLabels c name labels
  = match definitionOf (config c) name with
    | None => Err (ErrMetricNotFound name)
    | Some d =>
      match labels with
      | Some m => Ok (Some (normalized (Labels d) m))
      | None =>
        match Labels d with [] => Ok None | _ => Panic PanicAssignNilMap end
      end
    end.
Proof.
  unfold cleanLabels, definitionOf. rewrite cleanLabelsIn_find.
  destruct (find _ _) as [d|]; [|done].
  destruct labels as [m|].
  - destruct (fillMissing_map (Labels d) m) as (m' & -> & Hm').
    cbn. do 2 f_equal. apply map_eq. intros k.
    rewrite normalized_lookup. apply option_eq. intros v.
    rewrite map_lookup_filter_Some, Hm'. cbn.
    rewrite negb_involutive, Is_true_true, slices_Contains_true.
    destruct (decide (k ∈ Labels d)) as [Hin|Hin]; destruct (m !! k); cbn;
      intuition congruence.
  - rewrite fillMissing_nil. by destruct (Labels d).
Qed.

(** On a map that is not nil, [cleanLabels] returns a map whose keys are
    the declared labels: each keeps its input value or gets the filler,
    and every other key is gone. *)
Lemma cleanLabels_normalizes (c : MetricCollector) (name : string)
    (d : MetricConfig) (m : gmap string string) :
  definitionOf (config c) name = Some d →
  ∃ m', cleanLabels c name (Some m) = Ok (Some m')
        ∧ dom m' = list_to_set (Labels d)
        ∧ (∀ l v, l ∈ Labels d → m !! l = Some v → m' !! l = Some v)
        ∧ (∀ l, l ∈ Labels d → m !! l = None → m' !! l = Some Filler)
        ∧ (∀ k, k ∉ Labels d → m' !! k = None).
Proof.
  intros Hdef. exists (normalized (Labels d) m).
  rewrite cleanLabels_spec, Hdef.
  split; [done|]. split; [apply normalized_dom|].
  repeat split.
  - intros l v Hl Hv. by rewrite normalized_lookup, decide_True, Hv.
  - intros l Hl Hv. by rewrite normalized_lookup, decide_True, Hv.
  - intros k Hk. by rewrite normalized_lookup, decide_False.
Qed.

(** [cleanLabels] returns its not-found error exactly for the names no
    definition of the configuration bears. *)
Lemma cleanLabels_not_found (c : MetricCollector) (name : string)
    (labels : GoMap) :
  cleanLabels c name labels = Err (ErrMetricNotFound name)
  ↔ name ∉ Name <$> Metrics (config c).
Proof.
  rewrite cleanLabels_spec. unfold definitionOf.
  destruct (find _ _) as [d|] eqn:Hfind.
  - apply find_some in Hfind as [Hin <-%String.eqb_eq]. split.
    + destruct labels; [done|]. by destruct (Labels d).
    + intros []. apply list_elem_of_fmap_2. by apply list_elem_of_In.
  - split; [|done]. intros _ (d & -> & Hin)%list_elem_of_fmap.
    eapply find_none in Hfind; [|by apply list_elem_of_In].
    cbn in Hfind. by rewrite String.eqb_refl in Hfind.
Qed.

(** C1, where the code departs from it: the nil label map, which an
    update request without a [labels] field decodes to, makes
    [cleanLabels] panic as soon as the metric declares a label, where the
    claim has it return the declared labels with the filler. *)
Theorem cleanLabels_nil_map_panics :
  definitionOf (config example.collector) "job_last_success"
  = Some example.jobLastSuccess
  ∧ cleanLabels example.collector "job_last_success" None
    = Panic PanicAssignNilMap
  ∧ (UpdateGauge example.collector "job_last_success" 1700000000 None).2
    = Panic PanicAssignNilMap.
Proof. repeat split; vm_compute; reflexivity. Qed.

End labels.

(* ================================================================== *)
(** * Registration: what [NewMetricCollector] builds *)
(* ================================================================== *)

Module registration.
Import config prometheus collector.

Lemma typeOf_inj (k k' : Kind) : typeOf k = typeOf k' → k = k'.
Proof. by destruct k, k'. Qed.

Lemma Register_ok (r r' : Registry) (d : Desc) :
  Register r d = (r', None) →
  err d = None ∧ (fqName d ∉ fqName <$> descs r)
  ∧ descs r' = (descs r ++ [d])%list.
Proof.
  unfold Register. destruct (err d); [done|].
  destruct (existsb _ _) eqn:Hex; [done|]. intros [= <-].
  split; [done|]. split; [|done].
  intros (d' & Hfq & Hin)%list_elem_of_fmap.
  apply not_true_iff_false in Hex. apply Hex, existsb_exists.
  exists d'. split; [by apply list_elem_of_In|].
  rewrite Hfq. apply String.eqb_refl.
Qed.

(** What a registration that succeeds changes. *)
Lemma registerMetric_ok (scheme : ValidationScheme) (c c' : MetricCollector)
    (m : MetricConfig) :
  registerMetric scheme c m = (c', None) →
  config c' = config c
  ∧ err (descOf scheme (config c) m) = None
  ∧ (fqName (descOf scheme (config c) m) ∉ fqName <$> descs (registry c))
  ∧ descs (registry c') = (descs (registry c) ++ [descOf scheme (config c) m])%list
  ∧ (∃ k, Typ m = typeOf k
          ∧ ∀ k' name,
              descAt c' k' name
              = if decide (k' = k ∧ name = Name m)
                then Some (descOf scheme (config c) m)
                else descAt c k' name)
  ∧ (∀ name v, histograms c' !! name = Some v →
       histograms c !! name = Some v
       ∨ (name = Name m ∧ histogramBuckets v = Buckets m))
  ∧ (∀ name v, summaries c' !! name = Some v →
       summaries c !! name = Some v
       ∨ (name = Name m ∧ summaryObjectives v = Objectives m)).
Proof.
  unfold registerMetric.
  destruct (String.eqb_spec (Typ m) MetricTypeGauge) as [Hg|_];
    [|destruct (String.eqb_spec (Typ m) MetricTypeCounter) as [Hc|_];
      [|destruct (String.eqb_spec (Typ m) MetricTypeHistogram) as [Hh|_];
        [|destruct (String.eqb_spec (Typ m) MetricTypeSummary) as [Hs|_];
          [|done]]]].
  all: destruct (Register _ _) as [r [e|]] eqn:Hreg; [done|].
  all: intros [= <-]; apply Register_ok in Hreg as (Herr & Hfresh & Hdescs).
  all: cbn in Herr, Hfresh, Hdescs |- *.
  all: repeat split; try done.
  - exists Gauge. split; [done|]. intros k' name.
    destruct k'; cbn;
      try (rewrite decide_False by (by intros [? _]); done).
    destruct (decide (name = Name m)) as [->|Hne].
    + rewrite lookup_insert_eq. by rewrite decide_True.
    + rewrite lookup_insert_ne by done. by rewrite decide_False by (by intros [_ ?]).
  - auto.
  - auto.
  - exists Counter. split; [done|]. intros k' name.
    destruct k'; cbn;
      try (rewrite decide_False by (by intros [? _]); done).
    destruct (decide (name = Name m)) as [->|Hne].
    + rewrite lookup_insert_eq. by rewrite decide_True.
    + rewrite lookup_insert_ne by done. by rewrite decide_False by (by intros [_ ?]).
  - auto.
  - auto.
  - exists Histogram. split; [done|]. intros k' name.
    destruct k'; cbn;
      try (rewrite decide_False by (by intros [? _]); done).
    destruct (decide (name = Name m)) as [->|Hne].
    + rewrite lookup_insert_eq. by rewrite decide_True.
    + rewrite lookup_insert_ne by done. by rewrite decide_False by (by intros [_ ?]).
  - intros name v. destruct (decide (name = Name m)) as [->|Hne].
    + rewrite lookup_insert_eq. intros [= <-]. by right.
    + rewrite lookup_insert_ne by done. auto.
  - auto.
  - exists Summary. split; [done|]. intros k' name.
    destruct k'; cbn;
      try (rewrite decide_False by (by intros [? _]); done).
    destruct (decide (name = Name m)) as [->|Hne].
    + rewrite lookup_insert_eq. by rewrite decide_True.
    + rewrite lookup_insert_ne by done. by rewrite decide_False by (by intros [_ ?]).
  - auto.
  - intros name v. destruct (decide (name = Name m)) as [->|Hne].
    + rewrite lookup_insert_eq. intros [= <-]. by right.
    + rewrite lookup_insert_ne by done. auto.
Qed.

Lemma NoDup_fmap_eq_names (metrics : list MetricConfig) (x y : MetricConfig) :
  NoDup (Name <$> metrics) → x ∈ metrics → y ∈ metrics →
  Name x = Name y → x = y.
Proof.
  induction metrics as [|a l IH]; cbn; [by intros _ ?%elem_of_nil|].
  intros [Ha Hl]%NoDup_cons [->|Hx]%elem_of_cons [->|Hy]%elem_of_cons Hf;
    [done| | |by apply IH].
  - destruct Ha. rewrite Hf. by apply list_elem_of_fmap_2.
  - destruct Ha. rewrite <- Hf. by apply list_elem_of_fmap_2.
Qed.

(** One more definition registered. *)
Lemma Registered_step (scheme : ValidationScheme) (done : list MetricConfig)
    (c c' : MetricCollector) (m : MetricConfig) :
  Registered scheme done c →
  registerMetric scheme c m = (c', None) →
  config c' = config c ∧ Registered scheme (done ++ [m])%list c'.
Proof.
  intros [Hnames Hsound Hcomplete Hbuckets Hobjectives] Hreg.
  apply registerMetric_ok in Hreg
    as (Hcfg & Herr & Hfresh & Hdescs & (k & Hk & Hat) & Hh & Hs).
  split; [done|].
  assert (Hnew : ∀ m', m' ∈ done → Name m' ≠ Name m).
  { intros m' Hin Heq. apply Hfresh.
    destruct (Hcomplete m' Hin) as (_ & Hfq & _).
    unfold descOf in *. cbn in *. by rewrite <- Heq. }
  split; rewrite ?Hcfg.
  - rewrite fmap_app. apply NoDup_app. split; [done|]. split.
    + intros n (m' & -> & Hin)%list_elem_of_fmap [Heq|[]%elem_of_nil]%elem_of_cons.
      by apply (Hnew m').
    + cbn. apply NoDup_singleton.
  - intros k' name d. rewrite Hat. case_decide as Hd.
    + destruct Hd as [-> ->]. intros [= <-]. exists m.
      split; [apply elem_of_app; right; by left|done].
    + intros (m' & Hin & ? & ? & ?)%Hsound. exists m'.
      split; [apply elem_of_app; by left|done].
  - intros m' [Hin|[->|[]%elem_of_nil]%elem_of_cons]%elem_of_app.
    + destruct (Hcomplete m' Hin) as (He & Hfq & k' & Hk' & Hat').
      split; [done|]. split.
      { rewrite Hdescs, fmap_app. apply elem_of_app. by left. }
      exists k'. split; [done|]. rewrite Hat.
      rewrite decide_False; [done|]. intros [_ Heq]. by apply (Hnew m').
    + split; [done|]. split.
      { rewrite Hdescs, fmap_app. apply elem_of_app. right. by left. }
      exists k. split; [done|]. rewrite Hat. by rewrite decide_True.
  - intros name v [Hold|[-> Hb]]%Hh.
    + destruct (Hbuckets name v Hold) as (m' & Hin & ? & ?). exists m'.
      split; [apply elem_of_app; by left|done].
    + exists m. split; [apply elem_of_app; right; by left|done].
  - intros name v [Hold|[-> Hb]]%Hs.
    + destruct (Hobjectives name v Hold) as (m' & Hin & ? & ?). exists m'.
      split; [apply elem_of_app; by left|done].
    + exists m. split; [apply elem_of_app; right; by left|done].
Qed.

(** The loop of [registerMetrics], when it ends without an error. *)
Lemma Registered_loop (scheme : ValidationScheme) (rest done : list MetricConfig)
    (c c' : MetricCollector) :
  Registered scheme done c →
  registerMetricsFrom scheme c rest = (c', None) →
  config c' = config c ∧ Registered scheme (done ++ rest)%list c'.
Proof.
  revert done c. induction rest as [|m rest IH]; intros done c Hinv; cbn.
  - intros [= <-]. by rewrite app_nil_r.
  - destruct (registerMetric scheme c m) as [c1 [e|]] eqn:Hreg; [done|].
    intros Hloop. destruct (Registered_step _ _ _ _ _ Hinv Hreg) as [Hcfg Hinv1].
    destruct (IH _ _ Hinv1 Hloop) as [Hcfg' Hinv'].
    split; [congruence|]. by rewrite <- app_assoc in Hinv'.
Qed.

(** A collector [NewMetricCollector] returns is well formed, holds the
    configuration it was given, and holds the registry as it then is. *)
Lemma NewMetricCollector_WellFormed (scheme : ValidationScheme) (cfg : Config)
    (reg r : Registry) (c : MetricCollector) :
  NewMetricCollector scheme (Some cfg) reg = (r, Ok c) →
  config c = cfg ∧ registry c = r ∧ WellFormed scheme c.
Proof.
  unfold NewMetricCollector, registerMetrics. cbn.
  destruct (registerMetricsFrom _ _ _) as [c' [e|]] eqn:Hloop; [done|].
  intros [= <- <-].
  eapply (Registered_loop _ _ []) in Hloop as [Hcfg Hinv].
  - cbn in Hcfg. split; [done|]. split; [done|].
    unfold WellFormed. by rewrite Hcfg.
  - split; cbn; try (intros ???; rewrite ?lookup_empty; done);
      try (intros ? []%elem_of_nil).
    + apply NoDup_nil_2.
    + intros [] ? ?; cbn; rewrite lookup_empty; done.
Qed.








End registration.

(* ================================================================== *)
(** * The update operations *)
(* ================================================================== *)

Module updates.
Import config prometheus collector.

(** What [GetMetricWith] returns when it accepts the labels. *)
Lemma GetMetricWith_inl {A} (new : A) (v v' : MetricVec A) (labels : GoMap)
    (lvs : list string) :
  GetMetricWith new v labels = inl (lvs, v') →
  desc v' = desc v
  ∧ labelValues (variableLabels (desc v)) labels = inl lvs
  ∧ children v' = <[lvs := default new (children v !! lvs)]> (children v).
Proof.
  unfold GetMetricWith.
  destruct (validateValuesInLabels _ _); [done|].
  destruct (labelValues _ _) as [lvs'|]; [|done].
  destruct (children v !! lvs') as [x|] eqn:Hx; intros [= <- <-]; cbn.
  - rewrite Hx. cbn. by rewrite insert_id.
  - rewrite Hx. done.
Qed.

(** An update changes children only: the configuration, the registry,
    the names and descriptors in the four maps, and the buckets and
    objectives stay. *)
Lemma update_frame (k : Kind) (c c' : MetricCollector) (name : string)
    (value : float64) (labels : GoMap) (res : result unit) :
  update k c name value labels = (c', res) →
  config c' = config c ∧ registry c' = registry c
  ∧ (∀ k' n, descAt c' k' n = descAt c k' n)
  ∧ (∀ n, histogramBuckets <$> histograms c' !! n
          = histogramBuckets <$> histograms c !! n)
  ∧ (∀ n, summaryObjectives <$> summaries c' !! n
          = summaryObjectives <$> summaries c !! n).
Proof.
  destruct k; cbn;
    [unfold UpdateGauge; destruct (gauges c !! name) as [vec|] eqn:Hvec
    |unfold IncrementCounterBy; destruct (counters c !! name) as [vec|] eqn:Hvec
    |unfold ObserveHistogram; destruct (histograms c !! name) as [vec|] eqn:Hvec
    |unfold ObserveSummary; destruct (summaries c !! name) as [vec|] eqn:Hvec].
  all: try (intros [= <- <-]; done).
  all: destruct (cleanLabels c name labels) as [cleaned|e|p];
    try (intros [= <- <-]; done).
  all: destruct (GetMetricWith _ _ cleaned) as [[lvs vec']|e] eqn:Hwith;
    try (intros [= <- <-]; done).
  all: apply GetMetricWith_inl in Hwith as (Hdesc & _ & _).
  2: destruct (Counter_Add value lvs vec') as [vec''|] eqn:Hadd;
    [unfold Counter_Add in Hadd; destruct (PrimFloat.ltb value 0); [done|];
     injection Hadd as <-|].
  all: intros [= <- <-]; cbn.
  all: repeat split; try done.
  all: try (intros [] n; cbn; try done).
  all: try (intros n).
  all: destruct (decide (n = name)) as [->|Hne];
    [rewrite lookup_insert_eq, Hvec; cbn; by rewrite ?Hdesc
    |by rewrite lookup_insert_ne].
Qed.

Lemma exec_update (c : MetricCollector) (x : call) :
  ∃ k name value labels, exec c x = update k c name value labels.
Proof.
  destruct x as [name value labels|name labels|name value labels
                |name value labels|name value labels].
  - by exists Gauge, name, value, labels.
  - by exists Counter, name, 1%float, labels.
  - by exists Counter, name, value, labels.
  - by exists Histogram, name, value, labels.
  - by exists Summary, name, value, labels.
Qed.

Lemma update_WellFormed (scheme : ValidationScheme) (k : Kind)
    (c : MetricCollector) (name : string) (value : float64) (labels : GoMap) :
  WellFormed scheme c →
  WellFormed scheme (update k c name value labels).1.
Proof.
  intros [Hnames Hsound Hcomplete Hbuckets Hobjectives].
  destruct (update k c name value labels) as [c' res] eqn:Hup.
  apply update_frame in Hup as (Hcfg & Hreg & Hat & Hb & Ho).
  unfold WellFormed. cbn. split; rewrite ?Hcfg, ?Hreg.
  - done.
  - intros k' n d. rewrite Hat. apply Hsound.
  - intros m Hin. destruct (Hcomplete m Hin) as (? & ? & k' & ? & ?).
    repeat split; try done. exists k'. by rewrite Hat.
  - intros n v Hv. specialize (Hb n). rewrite Hv in Hb.
    destruct (histograms c !! n) as [v0|] eqn:Hv0; [|done].
    injection Hb as Hb. destruct (Hbuckets n v0 Hv0) as (m & ? & ? & ?).
    exists m. repeat split; try done. congruence.
  - intros n v Hv. specialize (Ho n). rewrite Hv in Ho.
    destruct (summaries c !! n) as [v0|] eqn:Hv0; [|done].
    injection Ho as Ho. destruct (Hobjectives n v0 Hv0) as (m & ? & ? & ?).
    exists m. repeat split; try done. congruence.
Qed.

Lemma run_WellFormed (scheme : ValidationScheme) (calls : list call)
    (c : MetricCollector) :
  WellFormed scheme c →
  config (run c calls).1 = config c ∧ WellFormed scheme (run c calls).1.
Proof.
  revert c. induction calls as [|x calls IH]; intros c Hwf; cbn; [done|].
  destruct (exec_update c x) as (k & name & value & labels & Hx).
  pose proof (update_WellFormed scheme k c name value labels Hwf) as Hwf1.
  destruct (update k c name value labels) as [c1 r] eqn:Hup.
  rewrite Hx. apply update_frame in Hup as (Hcfg & _).
  destruct (IH c1 Hwf1) as [Hcfg' Hwf']. cbn in *.
  destruct (run c1 calls) as [c2 rs]. cbn in *. split; [congruence|done].
Qed.

(** A collector as it stands after it was built and then updated. *)
Lemma built_WellFormed (scheme : ValidationScheme) (cfg : Config)
    (reg r : Registry) (c0 : MetricCollector) (calls : list call) :
  NewMetricCollector scheme (Some cfg) reg = (r, Ok c0) →
  config (run c0 calls).1 = cfg ∧ WellFormed scheme (run c0 calls).1.
Proof.
  intros (Hcfg & _ & Hwf)%registration.NewMetricCollector_WellFormed.
  destruct (run_WellFormed scheme calls c0 Hwf) as [Hcfg' Hwf'].
  split; [congruence|done].
Qed.

Lemma find_unique (metrics : list MetricConfig) (m : MetricConfig) :
  NoDup (Name <$> metrics) → m ∈ metrics →
  find (λ d, String.eqb (Name d) (Name m)) metrics = Some m.
Proof.
  induction metrics as [|a metrics IH]; cbn; [by intros _ ?%elem_of_nil|].
  intros [Ha Hl]%NoDup_cons Hin.
  destruct (String.eqb_spec (Name a) (Name m)) as [Heq|Hne].
  - apply elem_of_cons in Hin as [->|Hin]; [done|].
    destruct Ha. rewrite Heq. by apply list_elem_of_fmap_2.
  - apply elem_of_cons in Hin as [->|Hin]; [done|]. by apply IH.
Qed.

Lemma NewDesc_NoDup (scheme : ValidationScheme) (fq hlp : string)
    (labelNames : list string) :
  err (NewDesc scheme fq hlp labelNames) = None → NoDup labelNames.
Proof.
  cbn. destruct (negb _); [done|]. destruct (find _ _); [done|].
  case_bool_decide; done.
Qed.

(** For a name found in a map of a well-formed collector, the definition
    [cleanLabels] settles on is the one the vector was built from, and
    its labels are distinct. *)
Lemma registered_definition (scheme : ValidationScheme) (c : MetricCollector)
    (k : Kind) (name : string) (d : Desc) :
  WellFormed scheme c →
  descAt c k name = Some d →
  ∃ m, definitionOf (config c) name = Some m ∧ m ∈ Metrics (config c)
       ∧ Typ m = typeOf k ∧ variableLabels d = Labels m ∧ NoDup (Labels m).
Proof.
  intros Hwf Hd.
  destruct (reg_sound _ _ _ Hwf _ _ _ Hd) as (m & Hin & <- & Htyp & ->).
  exists m. split; [|split; [done|split; [done|split; [done|]]]].
  - apply find_unique; [apply (reg_names _ _ _ Hwf)|done].
  - destruct (reg_complete _ _ _ Hwf m Hin) as (Herr & _).
    by apply NewDesc_NoDup in Herr.
Qed.

Lemma labelValues_normalized (names declared : list string)
    (m : gmap string string) :
  names ⊆ declared →
  labelValues names (Some (normalized declared m))
  = inl (combination names (Some m)).
Proof.
  induction names as [|l names IH]; cbn; [done|]. intros Hsub.
  rewrite labels.normalized_lookup.
  rewrite decide_True by (apply Hsub; by left).
  rewrite IH; [done|]. intros x Hx. apply Hsub. by right.
Qed.

Lemma validateValuesInLabels_normalized (declared : list string)
    (m : gmap string string) :
  NoDup declared →
  Forall (λ s, utf8_ValidString s = true) (combination declared (Some m)) →
  validateValuesInLabels (Some (normalized declared m)) (length declared) = None.
Proof.
  intros Hnodup Hvalid. unfold validateValuesInLabels. cbn.
  rewrite <- size_dom, labels.normalized_dom, size_list_to_set by done.
  rewrite Nat.eqb_refl. cbn.
  rewrite (proj2 (forallb_forall _ _)); [done|].
  intros [k v] Hkv%list_elem_of_In%elem_of_map_to_list. cbn.
  rewrite labels.normalized_lookup in Hkv.
  case_decide as Hk; [|done]. injection Hkv as <-.
  rewrite Forall_forall in Hvalid. apply Hvalid.
  unfold combination. by apply (list_elem_of_fmap_2 (λ l, default Filler (m !! l))).
Qed.

(** After [cleanLabels], [With] accepts the labels and gives the child
    at the combination they stand for. *)
Lemma GetMetricWith_cleaned {A} (new : A) (scheme : ValidationScheme)
    (c : MetricCollector) (k : Kind) (name : string) (v : MetricVec A)
    (m : MetricConfig) (labels : GoMap) :
  definitionOf (config c) name = Some m →
  variableLabels (desc v) = Labels m → NoDup (Labels m) →
  (labels = None → Labels m = []) →
  Forall (λ s, utf8_ValidString s = true) (combination (Labels m) labels) →
  ∃ cleaned,
    cleanLabels c name labels = Ok cleaned
    ∧ GetMetricWith new v cleaned
      = inl (combination (Labels m) labels,
             {| desc := desc v;
                children :=
                  <[combination (Labels m) labels :=
                      default new (children v !! combination (Labels m) labels)]>
                    (children v) |}).
Proof.
  intros Hdef Hlabels Hnodup Hnil Hvalid.
  rewrite labels.cleanLabels_spec, Hdef.
  destruct labels as [input|].
  - eexists. split; [done|]. unfold GetMetricWith. rewrite Hlabels.
    rewrite validateValuesInLabels_normalized by done.
    rewrite labelValues_normalized by done.
    destruct (children v !! _) as [x|] eqn:Hx; cbn; [|done].
    rewrite insert_id by done. by destruct v.
  - rewrite Hnil by done. eexists. split; [done|].
    unfold GetMetricWith. rewrite Hlabels, Hnil by done. cbn.
    destruct (children v !! []) as [x|] eqn:Hx; cbn; [|done].
    rewrite insert_id by done. by destruct v.
Qed.

(** An increment [Add] takes, with labels the normalizer can handle,
    succeeds and adds the delta to what the combination had. *)
Lemma IncrementCounterBy_ok (scheme : ValidationScheme) (c : MetricCollector)
    (name : string) (value : float64) (labels : GoMap) (m : MetricConfig) :
  WellFormed scheme c →
  registeredAs c Counter name →
  definitionOf (config c) name = Some m →
  PrimFloat.ltb value 0 = false →
  (labels = None → Labels m = []) →
  Forall (λ s, utf8_ValidString s = true) (combination (Labels m) labels) →
  (IncrementCounterBy c name value labels).2 = Ok ()
  ∧ counterValue (IncrementCounterBy c name value labels).1 name
                 (combination (Labels m) labels)
    = PrimFloat.add (counterValue c name (combination (Labels m) labels)) value.
Proof.
  intros Hwf [d Hd] Hdef Hadd Hnil Hvalid.
  destruct (registered_definition scheme c Counter name d Hwf Hd)
    as (m' & Hdef' & _ & _ & Hlabels & Hnodup).
  assert (m' = m) as -> by congruence.
  cbn in Hd. unfold IncrementCounterBy, counterValue.
  destruct (counters c !! name) as [vec|] eqn:Hvec; [|done].
  injection Hd as <-.
  destruct (GetMetricWith_cleaned 0%float scheme c Counter name vec m labels)
    as (cleaned & -> & ->); try done.
  unfold Counter_Add. rewrite Hadd. cbn. split; [done|].
  rewrite lookup_insert_eq. cbn.
  by rewrite lookup_alter_eq, lookup_insert_eq.
Qed.

(** In a well-formed collector a name is registered under one kind. *)
Lemma registered_unique (scheme : ValidationScheme) (c : MetricCollector)
    (k k' : Kind) (name : string) :
  WellFormed scheme c →
  registeredAs c k name → registeredAs c k' name → k = k'.
Proof.
  intros Hwf [d Hd] [d' Hd'].
  destruct (reg_sound _ _ _ Hwf _ _ _ Hd) as (m & Hin & Hname & Htyp & _).
  destruct (reg_sound _ _ _ Hwf _ _ _ Hd') as (m' & Hin' & Hname' & Htyp' & _).
  assert (m = m') as <-.
  { eapply registration.NoDup_fmap_eq_names;
      [apply (reg_names _ _ _ Hwf)|done|done|congruence]. }
  apply registration.typeOf_inj. congruence.
Qed.

(** An operation whose map has no entry for the name returns its
    not-found error and changes nothing. *)
Lemma update_unregistered (k : Kind) (c : MetricCollector) (name : string)
    (value : float64) (labels : GoMap) :
  ¬ registeredAs c k name →
  update k c name value labels = (c, Err (notFound k name)).
Proof.
  unfold registeredAs. rewrite <- eq_None_not_Some.
  destruct k; cbn;
    [unfold UpdateGauge|unfold IncrementCounterBy
    |unfold ObserveHistogram|unfold ObserveSummary].
  all: by intros ->%fmap_None.
Qed.

(** C2. Kind-checked lookup: on a built collector, in any state updates
    have brought it to, an update operation on a name that is registered
    under no kind, or under another kind than the operation's, returns
    the not-found error of the operation's kind and leaves the collector,
    registry and aggregations included, as it was. *)
Theorem kind_checked_lookup (scheme : ValidationScheme) (cfg : Config)
    (reg r : Registry) (c0 : MetricCollector) (calls : list call)
    (k : Kind) (name : string) (value : float64) (labels : GoMap) :
  NewMetricCollector scheme (Some cfg) reg = (r, Ok c0) →
  let c := (run c0 calls).1 in
  (∀ k', ¬ registeredAs c k' name) ∨ (∃ k', k' ≠ k ∧ registeredAs c k' name) →
  update k c name value labels = (c, Err (notFound k name)).
Proof.
  intros Hbuilt c Hname. apply update_unregistered.
  destruct Hname as [Hnone|(k' & Hne & Hk')]; [apply Hnone|].
  intros Hk. apply Hne.
  destruct (built_WellFormed scheme cfg reg r c0 calls Hbuilt) as [_ Hwf].
  by apply (registered_unique scheme c k' k name).
Qed.

Lemma kind_checked_lookup_witness :
  update Gauge example.collector "job_failures_total" 1 None
  = (example.collector, Err (ErrGaugeNotFound "job_failures_total")).
Proof.
  apply (kind_checked_lookup LegacyValidation example.cfg NewRegistry
           (registry example.collector) example.collector []).
  - vm_compute. reflexivity.
  - right. exists Counter. split; [discriminate|].
    vm_compute. eexists. reflexivity.
Defined.

Lemma registeredAs_dom (c : MetricCollector) (name : string) :
  name ∈ dom (gauges c) ∪ dom (counters c) ∪ dom (histograms c)
         ∪ dom (summaries c)
  ↔ ∃ k, registeredAs c k name.
Proof.
  rewrite !elem_of_union, !elem_of_dom. unfold registeredAs. split.
  - intros [[[H|H]|H]|H];
      [exists Gauge|exists Counter|exists Histogram|exists Summary];
      cbn; by apply fmap_is_Some.
  - intros [[] H]; cbn in H; apply fmap_is_Some in H; auto.
Qed.

(** C9. On a built collector, in any state updates have brought it to,
    every name in one of the four maps is the name of a definition of the
    configuration; so for a name found in a map [cleanLabels] does not
    return its not-found error, and no update operation returns it. *)
Theorem cleanLabels_not_found_unreachable (scheme : ValidationScheme)
    (cfg : Config) (reg r : Registry) (c0 : MetricCollector)
    (calls : list call) :
  NewMetricCollector scheme (Some cfg) reg = (r, Ok c0) →
  let c := (run c0 calls).1 in
  (∀ name,
     name ∈ dom (gauges c) ∪ dom (counters c) ∪ dom (histograms c)
            ∪ dom (summaries c) →
     name ∈ Name <$> Metrics cfg)
  ∧ (∀ k name labels name',
       registeredAs c k name →
       cleanLabels c name labels ≠ Err (ErrMetricNotFound name'))
  ∧ (∀ x name', (exec c x).2 ≠ Err (ErrMetricNotFound name')).
Proof.
  intros Hbuilt c.
  destruct (built_WellFormed scheme cfg reg r c0 calls Hbuilt) as [Hcfg Hwf].
  fold c in Hcfg, Hwf.
  assert (Hin : ∀ k name, registeredAs c k name → name ∈ Name <$> Metrics cfg).
  { intros k name [d Hd].
    destruct (reg_sound _ _ _ Hwf _ _ _ Hd) as (m & Hm & <- & _).
    rewrite <- Hcfg. by apply list_elem_of_fmap_2. }
  assert (Hclean : ∀ k name labels name',
            registeredAs c k name →
            cleanLabels c name labels ≠ Err (ErrMetricNotFound name')).
  { intros k name labels name' Hk. rewrite labels.cleanLabels_spec.
    destruct (definitionOf (config c) name) as [d|] eqn:Hdef.
    - destruct labels; [done|]. by destruct (Labels d).
    - exfalso. apply Hin in Hk. rewrite <- Hcfg in Hk.
      apply list_elem_of_fmap in Hk as (m & -> & Hm).
      unfold definitionOf in Hdef.
      eapply find_none in Hdef; [|by apply list_elem_of_In].
      cbn in Hdef. by rewrite String.eqb_refl in Hdef. }
  split; [|split; [done|]].
  - intros name [k Hk]%registeredAs_dom. by apply (Hin k).
  - intros x name'.
    destruct (exec_update c x) as (k & name & value & labels & ->).
    destruct (decide (registeredAs c k name)) as [Hk|Hk].
    + specialize (Hclean k name labels name' Hk).
      destruct Hk as [d Hd].
      destruct k; cbn in Hd |- *;
        [unfold UpdateGauge; destruct (gauges c !! name)
        |unfold IncrementCounterBy; destruct (counters c !! name)
        |unfold ObserveHistogram; destruct (histograms c !! name)
        |unfold ObserveSummary; destruct (summaries c !! name)];
        try done.
      all: destruct (cleanLabels c name labels) as [cleaned|e|p];
        [|cbn; congruence|done].
      all: destruct (GetMetricWith _ _ cleaned) as [[lvs vec']|e]; [|done].
      all: try done.
      by destruct (Counter_Add value lvs vec').
    + rewrite update_unregistered by done. by destruct k.
Qed.

Lemma cleanLabels_not_found_unreachable_witness :
  (exec example.collector
        (CallUpdateGauge "job_last_success" 1 (Some ∅))).2
  ≠ Err (ErrMetricNotFound "job_last_success").
Proof.
  apply (cleanLabels_not_found_unreachable LegacyValidation example.cfg
           NewRegistry (registry example.collector) example.collector []).
  vm_compute. reflexivity.
Defined.

(** C7, as the code has it: on a built collector, in any state updates
    have brought it to, an increment of a registered counter by a delta
    that is not negative, with a label map the normalizer can handle (not
    nil unless the counter declares no label) and valid UTF-8 values for
    the declared labels, returns without an error and without a panic. *)
Theorem counter_increment_succeeds (scheme : ValidationScheme) (cfg : Config)
    (reg r : Registry) (c0 : MetricCollector) (history : list call)
    (name : string) (d : MetricConfig) (value : float64) (labels : GoMap) :
  NewMetricCollector scheme (Some cfg) reg = (r, Ok c0) →
  let c := (run c0 history).1 in
  registeredAs c Counter name →
  definitionOf cfg name = Some d →
  PrimFloat.ltb value 0 = false →
  (labels = None → Labels d = []) →
  Forall (λ s, utf8_ValidString s = true) (combination (Labels d) labels) →
  (IncrementCounterBy c name value labels).2 = Ok ().
Proof.
  intros Hbuilt c Hreg Hdef Hvalue Hnil Hvalid.
  destruct (built_WellFormed scheme cfg reg r c0 history Hbuilt) as [Hcfg Hwf].
  fold c in Hcfg, Hwf. rewrite <- Hcfg in Hdef.
  by apply (IncrementCounterBy_ok scheme c name value labels d).
Qed.

Lemma counter_increment_succeeds_witness :
  (IncrementCounterBy example.collector "job_failures_total" 1
                      (Some {["job_name" := "backup"]})).2 = Ok ().
Proof.
  apply (counter_increment_succeeds LegacyValidation example.cfg NewRegistry
           (registry example.collector) example.collector []
           "job_failures_total" example.jobFailuresTotal).
  - vm_compute. reflexivity.
  - vm_compute. eexists. reflexivity.
  - vm_compute. reflexivity.
  - vm_compute. reflexivity.
  - discriminate.
  - vm_compute. repeat constructor.
Defined.

(** C7, as the claim has it, fails: a negative delta makes the increment
    of a registered counter panic. *)
Lemma counter_negative_delta_panics :
  registeredAs example.collector Counter "job_failures_total"
  ∧ (IncrementCounterBy example.collector "job_failures_total" (-1)
                        (Some ∅)).2 = Panic PanicCounterDecrease.
Proof. split; vm_compute; [eexists|]; reflexivity. Qed.




End updates.

(* ================================================================== *)
(** * The default value of a gauge *)
(* ================================================================== *)

Module defaults.
Import config prometheus collector.

Lemma registerMetric_config (scheme : ValidationScheme) (c : MetricCollector)
    (m : MetricConfig) :
  config (registerMetric scheme c m).1 = config c.
Proof.
  unfold registerMetric.
  repeat (destruct (String.eqb _ _); [by destruct (Register _ _) as [? [?|]]|]).
  done.
Qed.

(** Registration reads neither the default value of the definition nor
    anything of the configuration but the namespace. *)
Lemma registerMetric_same (scheme : ValidationScheme) (c1 c2 : MetricCollector)
    (m1 m2 : MetricConfig) :
  sameAggregations c1 c2 →
  Namespace (Global (config c1)) = Namespace (Global (config c2)) →
  sameButDefault m1 m2 →
  (registerMetric scheme c1 m1).2 = (registerMetric scheme c2 m2).2
  ∧ sameAggregations (registerMetric scheme c1 m1).1 (registerMetric scheme c2 m2).1.
Proof.
  intros (Hr & Hg & Hc & Hh & Hs) Hns (Hname & Hdesc & Htyp & Hlabels & Hb & Ho & _).
  unfold registerMetric, sameAggregations.
  rewrite Hns, Hname, Hdesc, Htyp, Hlabels, Hb, Ho, Hr.
  repeat (destruct (String.eqb _ _);
          [destruct (Register _ _) as [? [?|]]; cbn; by rewrite ?Hg, ?Hc, ?Hh, ?Hs|]).
  done.
Qed.

Lemma registerMetricsFrom_same (scheme : ValidationScheme)
    (metrics1 metrics2 : list MetricConfig) :
  Forall2 sameButDefault metrics1 metrics2 →
  ∀ c1 c2,
    sameAggregations c1 c2 →
    Namespace (Global (config c1)) = Namespace (Global (config c2)) →
    (registerMetricsFrom scheme c1 metrics1).2
    = (registerMetricsFrom scheme c2 metrics2).2
    ∧ sameAggregations (registerMetricsFrom scheme c1 metrics1).1
                       (registerMetricsFrom scheme c2 metrics2).1.
Proof.
  induction 1 as [|m1 m2 metrics1 metrics2 Hm _ IH]; intros c1 c2 Hsame Hns;
    cbn; [done|].
  destruct (registerMetric_same scheme c1 c2 m1 m2 Hsame Hns Hm) as [He Hsame'].
  pose proof (registerMetric_config scheme c1 m1) as Hcfg1.
  pose proof (registerMetric_config scheme c2 m2) as Hcfg2.
  destruct (registerMetric scheme c1 m1) as [c1' [e1|]];
    destruct (registerMetric scheme c2 m2) as [c2' [e2|]]; cbn in *; try done.
  apply IH; [done|]. by rewrite Hcfg1, Hcfg2.
Qed.

(** [cleanLabels] reads the names and the labels of the definitions
    only. *)
Lemma cleanLabelsIn_same (metrics1 metrics2 : list MetricConfig)
    (name : string) (labels : GoMap) :
  Forall2 sameButDefault metrics1 metrics2 →
  cleanLabelsIn metrics1 name labels = cleanLabelsIn metrics2 name labels.
Proof.
  induction 1 as [|m1 m2 metrics1 metrics2 Hm _ IH]; cbn; [done|].
  destruct Hm as (-> & _ & _ & -> & _). by rewrite IH.
Qed.

(** The configuration is read by [cleanLabels] alone, so collectors with
    the same aggregations and like configurations answer a call alike. *)
Lemma exec_same (c1 c2 : MetricCollector) (x : call) :
  sameAggregations c1 c2 →
  Forall2 sameButDefault (Metrics (config c1)) (Metrics (config c2)) →
  (exec c1 x).2 = (exec c2 x).2
  ∧ sameAggregations (exec c1 x).1 (exec c2 x).1
  ∧ config (exec c1 x).1 = config c1 ∧ config (exec c2 x).1 = config c2.
Proof.
  intros (Hr & Hg & Hc & Hh & Hs) Hcfg.
  assert (Hclean : ∀ name labels,
            cleanLabels c1 name labels = cleanLabels c2 name labels).
  { intros. by apply cleanLabelsIn_same. }
  unfold sameAggregations.
  destruct x as [name value labels|name labels|name value labels
                |name value labels|name value labels]; cbn;
    [unfold UpdateGauge; rewrite Hg; destruct (gauges c2 !! name)
    |unfold IncrementCounter, IncrementCounterBy; rewrite Hc;
     destruct (counters c2 !! name)
    |unfold IncrementCounterBy; rewrite Hc; destruct (counters c2 !! name)
    |unfold ObserveHistogram; rewrite Hh; destruct (histograms c2 !! name)
    |unfold ObserveSummary; rewrite Hs; destruct (summaries c2 !! name)];
    try done.
  all: rewrite Hclean; destruct (cleanLabels c2 name labels); try done.
  all: destruct (GetMetricWith _ _ _) as [[lvs vec]|]; try done.
  all: try (destruct (Counter_Add _ lvs vec)).
  all: cbn; by rewrite ?Hr, ?Hg, ?Hc, ?Hh, ?Hs.
Qed.

Lemma run_same (calls : list call) (c1 c2 : MetricCollector) :
  sameAggregations c1 c2 →
  Forall2 sameButDefault (Metrics (config c1)) (Metrics (config c2)) →
  (run c1 calls).2 = (run c2 calls).2
  ∧ sameAggregations (run c1 calls).1 (run c2 calls).1.
Proof.
  revert c1 c2. induction calls as [|x calls IH]; intros c1 c2 Hsame Hcfg;
    cbn; [done|].
  destruct (exec_same c1 c2 x Hsame Hcfg) as (Hres & Hsame' & Hcfg1 & Hcfg2).
  destruct (exec c1 x) as [c1' r1]; destruct (exec c2 x) as [c2' r2].
  cbn in *. subst r2.
  destruct (IH c1' c2' Hsame') as [Hrs Hfinal]; [by rewrite Hcfg1, Hcfg2|].
  destruct (run c1' calls) as [c1'' rs1]; destruct (run c2' calls) as [c2'' rs2].
  cbn in *. by subst rs2.
Qed.

Lemma Gather_same (c1 c2 : MetricCollector) :
  sameAggregations c1 c2 → Gather c1 = Gather c2.
Proof. intros (_ & Hg & Hc & Hh & Hs). unfold Gather. by rewrite Hg, Hc, Hh, Hs. Qed.

(** Registration makes every gauge without a child. *)
Lemma registerMetric_gauges (scheme : ValidationScheme) (c : MetricCollector)
    (m : MetricConfig) (name : string) (v : GaugeVec) :
  gauges (registerMetric scheme c m).1 !! name = Some v →
  gauges c !! name = Some v ∨ children v = ∅.
Proof.
  unfold registerMetric.
  destruct (String.eqb _ _).
  { destruct (Register _ _) as [? [?|]]; cbn; [by left|].
    destruct (decide (name = Name m)) as [->|Hne].
    - rewrite lookup_insert_eq. intros [= <-]. by right.
    - rewrite lookup_insert_ne by done. by left. }
  repeat (destruct (String.eqb _ _);
          [destruct (Register _ _) as [? [?|]]; cbn; by left|]).
  by left.
Qed.

Lemma registerMetricsFrom_gauges (scheme : ValidationScheme)
    (metrics : list MetricConfig) (c : MetricCollector) (name : string)
    (v : GaugeVec) :
  gauges (registerMetricsFrom scheme c metrics).1 !! name = Some v →
  gauges c !! name = Some v ∨ children v = ∅.
Proof.
  revert c. induction metrics as [|m metrics IH]; intros c; cbn; [by left|].
  pose proof (registerMetric_gauges scheme c m name v) as Hstep.
  destruct (registerMetric scheme c m) as [c' [e|]]; cbn in *; [done|].
  intros [Hv|Hv]%IH; auto.
Qed.

(** C10. The default value of a gauge has no effect: two configurations
    that differ in the default values of gauge definitions only build,
    over the same registry, collectors with the same registry and the
    same aggregations, in which every gauge is without a value; or both
    fail, with the same error. From then on every sequence of update calls
    returns the same results in both, leaves the same aggregations, and so
    the same exposition. *)
Theorem default_value_no_effect (scheme : ValidationScheme)
    (cfg1 cfg2 : Config) (reg : Registry) :
  sameButGaugeDefaults cfg1 cfg2 →
  (NewMetricCollector scheme (Some cfg1) reg).1
  = (NewMetricCollector scheme (Some cfg2) reg).1
  ∧ match (NewMetricCollector scheme (Some cfg1) reg).2,
          (NewMetricCollector scheme (Some cfg2) reg).2 with
    | Ok c1, Ok c2 =>
      sameAggregations c1 c2
      ∧ (∀ name v, gauges c1 !! name = Some v → children v = ∅)
      ∧ ∀ calls,
          (run c1 calls).2 = (run c2 calls).2
          ∧ sameAggregations (run c1 calls).1 (run c2 calls).1
          ∧ Gather (run c1 calls).1 = Gather (run c2 calls).1
    | Err e1, Err e2 => e1 = e2
    | _, _ => False
    end.
Proof.
  intros (Hglobal & _ & Hmetrics).
  unfold NewMetricCollector, registerMetrics. cbn.
  set (c1 := {| config := cfg1 |}). set (c2 := {| config := cfg2 |}).
  destruct (registerMetricsFrom_same scheme _ _ Hmetrics c1 c2)
    as [Herr Hsame]; [done|by cbn; rewrite Hglobal|].
  pose proof (registration.Registered_loop scheme (Metrics cfg1) [] c1) as Hcfg1.
  pose proof (registration.Registered_loop scheme (Metrics cfg2) [] c2) as Hcfg2.
  pose proof (registerMetricsFrom_gauges scheme (Metrics cfg1) c1) as Hfresh.
  destruct (registerMetricsFrom scheme c1 (Metrics cfg1)) as [c1' [e1|]];
    destruct (registerMetricsFrom scheme c2 (Metrics cfg2)) as [c2' [e2|]];
    cbn in *; try done.
  - split; [apply Hsame|congruence].
  - split; [apply Hsame|]. split; [done|]. split.
    + intros name v [Hv|Hv]%Hfresh; [|done]. by rewrite lookup_empty in Hv.
    + intros calls.
      destruct (run_same calls c1' c2' Hsame) as [Hres Hfinal].
      { assert (Hinit : ∀ c, Registered scheme [] {| config := c; registry := reg;
                  gauges := ∅; counters := ∅; histograms := ∅; summaries := ∅ |}).
        { intros c. split; cbn; try (intros ???; rewrite ?lookup_empty; done);
            try (intros ? []%elem_of_nil).
          - apply NoDup_nil_2.
          - intros [] ? ?; cbn; rewrite lookup_empty; done. }
        destruct (Hcfg1 c1' (Hinit cfg1) eq_refl) as [-> _].
        destruct (Hcfg2 c2' (Hinit cfg2) eq_refl) as [-> _]. done. }
      split; [done|]. split; [done|]. by apply Gather_same.
Qed.

(** [config.yml] with another default for its gauge. *)
Lemma default_value_no_effect_witness :
  let cfg' :=
    example.withMetrics [example.jobLastSuccess'; example.jobDurationSeconds;
                         example.jobFailuresTotal] in
  (NewMetricCollector LegacyValidation (Some example.cfg) NewRegistry).1
  = (NewMetricCollector LegacyValidation (Some cfg') NewRegistry).1
  ∧ match (NewMetricCollector LegacyValidation (Some example.cfg) NewRegistry).2,
          (NewMetricCollector LegacyValidation (Some cfg') NewRegistry).2 with
    | Ok c1, Ok c2 =>
      sameAggregations c1 c2
      ∧ (∀ name v, gauges c1 !! name = Some v → children v = ∅)
      ∧ ∀ calls,
          (run c1 calls).2 = (run c2 calls).2
          ∧ sameAggregations (run c1 calls).1 (run c2 calls).1
          ∧ Gather (run c1 calls).1 = Gather (run c2 calls).1
    | Err e1, Err e2 => e1 = e2
    | _, _ => False
    end.
Proof.
  apply default_value_no_effect.
  split; [reflexivity|]. split; [reflexivity|].
  repeat constructor; done.
Defined.

End defaults.

(* ================================================================== *)
(** * The examples of the specification, run on the model *)
(* ================================================================== *)

Module walkthrough.
Import config prometheus collector.

(** The shipped configuration passes validation and registers. *)
Example shipped_config_validates :
  validateMetrics (Metrics example.cfg) = (Metrics example.cfg, None).
Proof. vm_compute. reflexivity. Qed.

Example shipped_config_registers :
  fqName <$> descs (registry example.collector)
  = ["cron_monitor_job_last_success"; "cron_monitor_job_duration_seconds";
     "cron_monitor_job_failures_total"].
Proof. vm_compute. reflexivity. Qed.

(** A name defined twice is reported at its second definition. *)
Example duplicate_name_reported :
  (validateMetrics [example.jobLastSuccess; example.jobFailuresTotal;
                    example.jobLastSuccess']).2
  = Some (ErrDuplicateName "job_last_success").
Proof. vm_compute. reflexivity. Qed.

(** The same two definitions do not register either: the library
    refuses the second fully qualified name. *)
Example duplicate_name_not_registered :
  (NewMetricCollector LegacyValidation
     (Some (example.withMetrics [example.jobLastSuccess; example.jobLastSuccess']))
     NewRegistry).2
  = Err (ErrRegisterGauge "job_last_success"
           (ErrAlreadyRegistered "cron_monitor_job_last_success")).
Proof. vm_compute. reflexivity. Qed.

(** [update_gauge("job_last_success", 1700000000, {job_name: "backup"})]
    stores the value under [backup] and the filler. *)
Example gauge_with_missing_label :
  let after :=
    UpdateGauge example.collector "job_last_success" 1700000000
                (Some {["job_name" := "backup"]}) in
  after.2 = Ok ()
  ∧ children <$> gauges after.1 !! "job_last_success"
    = Some {[ ["backup"; "<missing>"] := 1700000000%float ]}.
Proof. vm_compute. split; reflexivity. Qed.

(** An increment with a label the counter does not declare stores the
    combination without it. *)
Example counter_with_extra_label :
  let after :=
    IncrementCounterBy example.collector "job_failures_total" 1
      (Some {["job_name" := "x"; "environment" := "prod";
              "error_type" := "timeout"; "extra" := "drop-me"]}) in
  after.2 = Ok ()
  ∧ children <$> counters after.1 !! "job_failures_total"
    = Some {[ ["x"; "prod"; "timeout"] := 1%float ]}.
Proof. vm_compute. split; reflexivity. Qed.

(** [update_gauge("unknown_metric", 1, {})] fails and changes nothing. *)
Example unknown_metric_not_found :
  UpdateGauge example.collector "unknown_metric" 1 (Some ∅)
  = (example.collector, Err (ErrGaugeNotFound "unknown_metric")).
Proof. vm_compute. reflexivity. Qed.

(** Setting a gauge again to the same value leaves one stored value. *)
Example gauge_set_twice :
  let x := CallUpdateGauge "job_last_success" 7
                           (Some {["job_name" := "backup"]}) in
  (run example.collector [x; x]).1 = (run example.collector [x]).1.
Proof. vm_compute. reflexivity. Qed.

(** A label value that is not UTF-8 makes [With] panic. *)
Example invalid_label_value_panics :
  (UpdateGauge example.collector "job_last_success" 1
     (Some {["job_name" := String (Ascii.ascii_of_N 255) ""]})).2
  = Panic PanicInvalidLabels.
Proof. vm_compute. reflexivity. Qed.

(** Under the legacy scheme a name with a dash does not register; under
    the UTF-8 scheme it registers, under that very name. *)
Example dash_name_legacy :
  (NewMetricCollector LegacyValidation
     (Some (example.withMetrics
              [{| Name := "job-a"; Description := "A job"; Typ := "gauge";
                  Labels := []; DefaultValue := 0; Buckets := [];
                  Objectives := [] |}])) NewRegistry).2
  = Err (ErrRegisterGauge "job-a"
           (ErrDescInvalid (ErrInvalidMetricName "cron_monitor_job-a"))).
Proof. vm_compute. reflexivity. Qed.

Example dash_name_utf8 :
  dom (gauges (example.build UTF8Validation
                 (example.withMetrics
                    [{| Name := "job-a"; Description := "A job"; Typ := "gauge";
                        Labels := []; DefaultValue := 0; Buckets := [];
                        Objectives := [] |}])))
  = {["job-a"]}.
Proof. vm_compute. reflexivity. Qed.

End walkthrough.

(* ================================================================== *)
(** * Loading and validating a configuration *)
(* ================================================================== *)

Module settings.
Import config.

(** No definition offends exactly when none is invalid by itself and the
    names are distinct. *)
Lemma no_offending (metrics : list MetricConfig) :
  (∀ i, ¬ offending metrics i)
  ↔ Forall (λ m, ¬ invalid m) metrics ∧ NoDup (Name <$> metrics).
Proof.
  split.
  - intros Hnone. split.
    + apply Forall_lookup. intros i m Hi Hinv. apply (Hnone i). exists m. auto.
    + apply NoDup_alt. intros i j n Hi Hj.
      apply list_lookup_fmap_Some in Hi as (mi & -> & Hi).
      apply list_lookup_fmap_Some in Hj as (mj & Hname & Hj).
      destruct (Nat.lt_trichotomy i j) as [Hlt|[->|Hlt]]; [|done|].
      * destruct (Hnone j). exists mj. split; [done|]. right. by exists i, mi.
      * destruct (Hnone i). exists mi. split; [done|]. right. by exists j, mj.
  - intros [Hvalid Hnodup] i (m & Hi & [Hinv|(j & m' & Hlt & Hj & Hname)]).
    + by apply (proj1 (Forall_lookup _ _) Hvalid i m).
    + assert (i = j); [|lia].
      eapply (proj1 (NoDup_alt _) Hnodup); rewrite list_lookup_fmap.
      * by rewrite Hi.
      * rewrite Hj. cbn. by rewrite Hname.
Qed.

Lemma ParsedRefreshInterval_error (parse : string → option Z) (g : GlobalConfig) :
  (ParsedRefreshInterval parse g).2.2 = None
  ↔ parsedInterval g ≠ 0%Z ∨ is_Some (parse (RefreshInterval g)).
Proof.
  unfold ParsedRefreshInterval.
  destruct (Z.eqb_spec (parsedInterval g) 0) as [Hz|Hz]; cbn.
  - destruct (parse (RefreshInterval g)) as [d|]; cbn.
    + split; [eauto|done].
    + split; [done|]. intros [?|[? ?]]; done.
  - split; [auto|done].
Qed.

(** X1. [Config.Validate] passes exactly the configurations with a
    namespace, a refresh interval that is cached or parses, definitions
    that are each valid, and distinct names. *)
Theorem Config_Validate_passes (parse : string → option Z) (c : Config) :
  (Config_Validate parse c).2 = None
  ↔ Namespace (Global c) ≠ ""
    ∧ (parsedInterval (Global c) ≠ 0%Z
       ∨ is_Some (parse (RefreshInterval (Global c))))
    ∧ Forall (λ m, ¬ invalid m) (Metrics c)
    ∧ NoDup (Name <$> Metrics c).
Proof.
  rewrite <- no_offending, <- ParsedRefreshInterval_error.
  unfold Config_Validate.
  destruct (String.eqb_spec (Namespace (Global c)) "") as [Hns|Hns].
  { split; [done|]. by intros [? _]. }
  destruct (ParsedRefreshInterval parse (Global c)) as [g [d [e|]]]; cbn.
  { split; [done|]. by intros (_ & ? & _). }
  pose proof (validation.validateMetrics_spec (Metrics c)) as [_ Hspec].
  destruct (validateMetrics (Metrics c)) as [ms [e|]]; cbn in *.
  - split; [done|]. intros (_ & _ & Hnone).
    destruct Hspec as (k & _ & _ & Hoff & _). by destruct (Hnone k).
  - done.
Qed.

Lemma ParsedRefreshInterval_twice (parse : string → option Z) (g : GlobalConfig) :
  ParsedRefreshInterval parse (ParsedRefreshInterval parse g).1
  = ParsedRefreshInterval parse g.
Proof.
  unfold ParsedRefreshInterval.
  destruct (Z.eqb_spec (parsedInterval g) 0) as [Hz|Hz]; cbn.
  - destruct (parse (RefreshInterval g)) as [d|] eqn:Hd; cbn.
    + destruct (Z.eqb_spec d 0) as [->|Hd0]; cbn; [by rewrite Hd|done].
    + by rewrite Hd.
  - by destruct (Z.eqb_spec (parsedInterval g) 0).
Qed.

Lemma ParsedRefreshInterval_Namespace (parse : string → option Z)
    (g : GlobalConfig) :
  Namespace (ParsedRefreshInterval parse g).1 = Namespace g.
Proof.
  unfold ParsedRefreshInterval. destruct (negb _); [done|]. by destruct (parse _).
Qed.

(** X2. [Config.Validate] is idempotent: run again on the configuration
    it leaves, it leaves the same configuration and returns the same
    error. *)
Theorem Config_Validate_idempotent (parse : string → option Z) (c : Config) :
  Config_Validate parse (Config_Validate parse c).1 = Config_Validate parse c.
Proof.
  unfold Config_Validate.
  destruct (String.eqb_spec (Namespace (Global c)) "") as [Hns|Hns]; cbn.
  { by rewrite Hns. }
  pose proof (ParsedRefreshInterval_twice parse (Global c)) as Htwice.
  pose proof (ParsedRefreshInterval_Namespace parse (Global c)) as Hns'.
  destruct (ParsedRefreshInterval parse (Global c)) as [g [d [e|]]];
    cbn in *.
  - rewrite Hns'. destruct (String.eqb_spec (Namespace (Global c)) ""); [done|].
    by rewrite Htwice.
  - pose proof (validation.validateMetrics_spec (Metrics c)) as [Hpure _].
    destruct (validateMetrics (Metrics c)) as [ms e] eqn:Hv; cbn in *.
    rewrite Hns'. destruct (String.eqb_spec (Namespace (Global c)) ""); [done|].
    rewrite Htwice. subst ms.
    change (validateLoop ∅ 0 (Metrics c) (Metrics c))
      with (validateMetrics (Metrics c)).
    by rewrite Hv.
Qed.

(** [LoadConfig] returns the configuration [Config.Validate] leaves of
    the decoded one, when all three steps succeed. *)
Lemma LoadConfig_inl (readFile : string → option string)
    (unmarshal : string → Config → option Config)
    (parse : string → option Z) (filename : string) (cfg : Config) :
  config_load.LoadConfig readFile unmarshal parse filename = inl cfg →
  ∃ c, Config_Validate parse c = (cfg, None).
Proof.
  unfold config_load.LoadConfig.
  destruct (readFile filename) as [data|]; [|done].
  destruct (unmarshal data _) as [c|]; [|done].
  destruct (Config_Validate parse c) as [c' [e|]] eqn:Hval; [done|].
  intros [= <-]. by exists c.
Qed.

(** What validation leaves when it passes. *)
Lemma Config_Validate_None (parse : string → option Z) (c cfg : Config) :
  Config_Validate parse c = (cfg, None) →
  Namespace (Global cfg) ≠ ""
  ∧ (ParsedRefreshInterval parse (Global cfg)).2.2 = None
  ∧ Forall (λ m, ¬ invalid m) (Metrics cfg)
  ∧ NoDup (Name <$> Metrics cfg).
Proof.
  unfold Config_Validate.
  destruct (String.eqb_spec (Namespace (Global c)) "") as [Hns|Hns]; [done|].
  pose proof (ParsedRefreshInterval_twice parse (Global c)) as Htwice.
  pose proof (ParsedRefreshInterval_Namespace parse (Global c)) as Hns'.
  destruct (ParsedRefreshInterval parse (Global c)) as [g [d [e|]]]; [done|].
  pose proof (validation.validateMetrics_spec (Metrics c)) as [Hpure Hspec].
  destruct (validateMetrics (Metrics c)) as [ms [e|]]; [done|].
  intros [= <-]. cbn in *. subst ms.
  split; [congruence|]. split; [by rewrite Htwice|]. by apply no_offending.
Qed.

(** X3. A configuration [LoadConfig] returns has passed validation: it
    has a namespace, its refresh interval is at hand without an error,
    every definition is valid and the names are distinct. *)
Theorem LoadConfig_validated (readFile : string → option string)
    (unmarshal : string → Config → option Config)
    (parse : string → option Z) (filename : string) (cfg : Config) :
  config_load.LoadConfig readFile unmarshal parse filename = inl cfg →
  Namespace (Global cfg) ≠ ""
  ∧ (ParsedRefreshInterval parse (Global cfg)).2.2 = None
  ∧ Forall (λ m, ¬ invalid m) (Metrics cfg)
  ∧ NoDup (Name <$> Metrics cfg).
Proof.
  intros [c Hval]%LoadConfig_inl. by apply (Config_Validate_None parse c).
Qed.

Lemma LoadConfig_validated_witness :
  NoDup (Name <$> Metrics example.cfg).
Proof.
  apply (LoadConfig_validated (λ _, Some "") (λ _ _, Some example.cfg)
           (λ _, Some 30000000000%Z) "config.yml"
           {| Global := {| Namespace := "cron_monitor"; RefreshInterval := "30s";
                           parsedInterval := 30000000000 |};
              Metrics := Metrics example.cfg; Web_ := Web_ example.cfg |}).
  vm_compute. reflexivity.
Defined.

End settings.

(* ================================================================== *)
(** * When a collector can be built, and what the registry then holds *)
(* ================================================================== *)

Module building.
Import config prometheus collector views.

(** The fully qualified name [registerMetric] registers a definition
    under. *)
Lemma Register_fails (r r' : Registry) (d : Desc) (e : RegisterError) :
  Register r d = (r', Some e) → r' = r.
Proof.
  unfold Register. destruct (err d); [by intros [= <-]|].
  destruct (existsb _ _); by intros [= <-].
Qed.

Lemma Register_succeeds (r : Registry) (d : Desc) :
  err d = None → fqName d ∉ fqName <$> descs r →
  Register r d = ({| descs := (descs r ++ [d])%list |}, None).
Proof.
  intros Herr Hfresh. unfold Register. rewrite Herr.
  destruct (existsb _ _) eqn:Hex; [|done].
  destruct Hfresh. apply existsb_exists in Hex as (d' & Hin & Heq%String.eqb_eq).
  rewrite <- Heq. apply list_elem_of_fmap_2. by apply list_elem_of_In.
Qed.

Lemma knownType_typeOf (t : MetricType) : knownType t ↔ ∃ k, t = typeOf k.
Proof.
  split.
  - intros [-> | [-> | [-> | ->]]];
      [by exists Gauge|by exists Counter|by exists Histogram|by exists Summary].
  - intros [k ->]. destruct k; unfold knownType; cbn; auto.
Qed.

(** A registration succeeds exactly for a definition of a known type
    whose descriptor the library accepts and whose fully qualified name
    the registry does not hold yet. *)
Lemma registerMetric_None (scheme : ValidationScheme) (c : MetricCollector)
    (m : MetricConfig) :
  (registerMetric scheme c m).2 = None
  ↔ knownType (Typ m) ∧ err (descOf scheme (config c) m) = None
    ∧ fqName (descOf scheme (config c) m) ∉ fqName <$> descs (registry c).
Proof.
  split.
  - destruct (registerMetric scheme c m) as [c' e] eqn:Hreg. cbn. intros ->.
    apply registration.registerMetric_ok in Hreg
      as (_ & Herr & Hfresh & _ & (k & Hk & _) & _).
    split; [apply knownType_typeOf; eauto|done].
  - intros (Hknown & Herr & Hfresh). unfold registerMetric.
    pose proof (Register_succeeds (registry c) _ Herr Hfresh) as Hreg.
    unfold descOf in Hreg.
    destruct Hknown as [-> | [-> | [-> | ->]]]; cbn;
      unfold NewGaugeVec, NewCounterVec, NewHistogramVec, NewSummaryVec; cbn;
      by rewrite Hreg.
Qed.

(** What a registration does to the registry and the configuration. *)
Lemma registerMetric_registry (scheme : ValidationScheme) (c : MetricCollector)
    (m : MetricConfig) :
  config (registerMetric scheme c m).1 = config c
  ∧ descs (registry (registerMetric scheme c m).1)
    = match (registerMetric scheme c m).2 with
      | None => (descs (registry c) ++ [descOf scheme (config c) m])%list
      | Some _ => descs (registry c)
      end.
Proof.
  destruct (registerMetric scheme c m) as [c' [e|]] eqn:Hreg; cbn.
  - revert Hreg. unfold registerMetric.
    repeat (destruct (String.eqb _ _);
            [destruct (Register _ _) as [r [e'|]] eqn:Hr; intros [= <- <-];
             apply Register_fails in Hr as ->; done|]).
    by intros [= <- <-].
  - apply registration.registerMetric_ok in Hreg as (? & _ & _ & ? & _). done.
Qed.

(** The loop registers the definitions in order, up to the first that
    cannot be registered. *)
Lemma registerMetricsFrom_registry (scheme : ValidationScheme)
    (rest : list MetricConfig) (c : MetricCollector) :
  ∃ done left,
    rest = (done ++ left)%list
    ∧ config (registerMetricsFrom scheme c rest).1 = config c
    ∧ descs (registry (registerMetricsFrom scheme c rest).1)
      = (descs (registry c) ++ (descOf scheme (config c) <$> done))%list
    ∧ match (registerMetricsFrom scheme c rest).2 with
      | None => left = []
      | Some _ =>
        ∃ m left', left = m :: left'
          ∧ ¬ (knownType (Typ m) ∧ err (descOf scheme (config c) m) = None
               ∧ fqName (descOf scheme (config c) m)
                 ∉ fqName <$> descs (registry (registerMetricsFrom scheme c rest).1))
      end.
Proof.
  revert c. induction rest as [|m rest IH]; intros c; cbn [registerMetricsFrom].
  { exists [], []. cbn [fst snd fmap list_fmap]. by rewrite !app_nil_r. }
  pose proof (registerMetric_registry scheme c m) as [Hcfg Hdescs].
  pose proof (registerMetric_None scheme c m) as Hiff.
  destruct (registerMetric scheme c m) as [c1 [e|]]; cbn [fst snd] in *.
  - exists [], (m :: rest). cbn [fmap list_fmap]. rewrite app_nil_r.
    repeat split; try done.
    exists m, rest. split; [done|]. rewrite Hdescs. by intros H%Hiff.
  - destruct (IH c1) as (done & left & -> & Hcfg' & Hdescs' & Hres).
    exists (m :: done), left. rewrite Hcfg in *.
    split; [done|]. split; [done|].
    split; [|done]. rewrite Hdescs', Hdescs, <- app_assoc. done.
Qed.









Lemma registerMetric_childless (scheme : ValidationScheme) (c : MetricCollector)
    (m : MetricConfig) :
  childless c → childless (registerMetric scheme c m).1.
Proof.
  intros (Hg & Hc & Hh & Hs). unfold registerMetric, childless.
  repeat (destruct (String.eqb _ _);
    [destruct (Register _ _) as [r [e|]]; cbn; [done|];
     repeat split; try done; intros n v;
     (destruct (decide (n = Name m)) as [->|Hne];
      [rewrite lookup_insert_eq; by intros [= <-]
      |rewrite lookup_insert_ne by done; eauto])|]).
  done.
Qed.

Lemma registerMetricsFrom_childless (scheme : ValidationScheme)
    (rest : list MetricConfig) (c : MetricCollector) :
  childless c → childless (registerMetricsFrom scheme c rest).1.
Proof.
  revert c. induction rest as [|m rest IH]; intros c Hc;
    cbn [registerMetricsFrom]; [done|].
  pose proof (registerMetric_childless scheme c m Hc) as Hc1.
  destruct (registerMetric scheme c m) as [c1 [e|]]; cbn [fst] in *; [done|].
  by apply IH.
Qed.

(** The names in the four maps of a well-formed collector are, each
    once, the names of the definitions. *)
Lemma WellFormed_sizes (scheme : ValidationScheme) (c : MetricCollector) :
  WellFormed scheme c →
  size (gauges c) + size (counters c) + size (histograms c) + size (summaries c)
  = length (Metrics (config c)).
Proof.
  intros Hwf.
  assert (Hdisj : ∀ k k' n,
            k ≠ k' → registeredAs c k n → registeredAs c k' n → False).
  { intros k k' n Hne Hk Hk'. apply Hne.
    by apply (updates.registered_unique scheme c k k' n). }
  assert (Hreg : ∀ n,
            (∃ k, registeredAs c k n) ↔ n ∈ Name <$> Metrics (config c)).
  { intros n. split.
    - intros [k [d Hd]].
      destruct (reg_sound _ _ _ Hwf _ _ _ Hd) as (m & Hin & <- & _).
      by apply list_elem_of_fmap_2.
    - intros (m & -> & Hin)%list_elem_of_fmap.
      destruct (reg_complete _ _ _ Hwf m Hin) as (_ & _ & k & _ & Hat).
      exists k. by eexists. }
  assert (Hdom : ∀ k n, registeredAs c k n ↔
            n ∈ match k with
                | Gauge => dom (gauges c) | Counter => dom (counters c)
                | Histogram => dom (histograms c) | Summary => dom (summaries c)
                end).
  { intros k n. unfold registeredAs.
    destruct k; cbn [descAt]; by rewrite elem_of_dom, fmap_is_Some. }
  rewrite <- !size_dom.
  rewrite <- !size_union.
  - rewrite <- (length_fmap Name), <- (size_list_to_set (C := gset string))
      by apply (reg_names _ _ _ Hwf).
    f_equal. apply set_eq. intros n.
    rewrite elem_of_list_to_set, <- Hreg, !elem_of_union. split.
    + intros [[[H|H]|H]|H];
        [exists Gauge|exists Counter|exists Histogram|exists Summary];
        by apply Hdom.
    + intros [[] H%Hdom]; auto.
  - intros n [[H1|H1]%elem_of_union|H1]%elem_of_union H2;
      [by apply (Hdisj Gauge Summary n); try apply Hdom
      |by apply (Hdisj Counter Summary n); try apply Hdom
      |by apply (Hdisj Histogram Summary n); try apply Hdom].
  - intros n [H1|H1]%elem_of_union H2;
      [by apply (Hdisj Gauge Histogram n); try apply Hdom
      |by apply (Hdisj Counter Histogram n); try apply Hdom].
  - intros n H1 H2. by apply (Hdisj Gauge Counter n); try apply Hdom.
Qed.

(** X7. A collector as [NewMetricCollector] returns it holds one
    vector for each definition of the configuration, and no vector has a
    label combination: registration sets no value. *)
Theorem new_collector_empty (scheme : ValidationScheme) (cfg : Config)
    (reg r : Registry) (c : MetricCollector) :
  NewMetricCollector scheme (Some cfg) reg = (r, Ok c) →
  size (gauges c) + size (counters c) + size (histograms c) + size (summaries c)
  = length (Metrics cfg)
  ∧ childless c.
Proof.
  intros Hbuilt.
  destruct (registration.NewMetricCollector_WellFormed _ _ _ _ _ Hbuilt)
    as (Hcfg & _ & Hwf).
  split.
  - by rewrite <- Hcfg, <- (WellFormed_sizes scheme c Hwf).
  - revert Hbuilt. unfold NewMetricCollector, registerMetrics. cbn [config].
    set (c0 := {| config := cfg |}).
    pose proof (registerMetricsFrom_childless scheme (Metrics cfg) c0) as H.
    destruct (registerMetricsFrom scheme c0 (Metrics cfg)) as [c1 [e|]];
      [done|].
    intros [= <- <-]. apply H. subst c0.
    repeat split; intros n v Hv; cbn in Hv; by rewrite lookup_empty in Hv.
Qed.

Lemma new_collector_empty_witness :
  childless example.collector.
Proof.
  apply (new_collector_empty LegacyValidation example.cfg NewRegistry
           (registry example.collector) example.collector).
  vm_compute. reflexivity.
Defined.

End building.

(* ================================================================== *)
(** * What an update does to a built collector *)
(* ================================================================== *)

Module behaviour.
Import config prometheus collector views.

(** [With] on a normalized map checks the values of the combination. *)
Lemma validateValuesInLabels_combination (declared : list string)
    (m : gmap string string) :
  NoDup declared →
  validateValuesInLabels (Some (normalized declared m)) (length declared)
  = if forallb utf8_ValidString (combination declared (Some m))
    then None else Some ErrLabelValueNotUTF8.
Proof.
  intros Hnodup.
  destruct (forallb _ (combination _ _)) eqn:Hall.
  - apply updates.validateValuesInLabels_normalized; [done|].
    apply Forall_forall. intros s Hs%list_elem_of_In.
    by apply (proj1 (forallb_forall _ _) Hall).
  - unfold validateValuesInLabels. cbn [mapLen from_option default].
    rewrite <- size_dom, labels.normalized_dom, size_list_to_set by done.
    rewrite Nat.eqb_refl. cbn [negb].
    destruct (forallb _ (map_to_list _)) eqn:Hmap; [|done].
    cbn [default id] in Hmap. unfold id in Hmap. exfalso.
    apply not_true_iff_false in Hall. apply Hall, forallb_forall.
    intros s (l & -> & Hl)%list_elem_of_In%list_elem_of_fmap.
    apply (proj1 (forallb_forall _ _) Hmap (l, default Filler (m !! l))).
    apply list_elem_of_In, elem_of_map_to_list.
    by rewrite labels.normalized_lookup, decide_True.
Qed.

(** What [cleanLabels] and [With] make of the label map of an update,
    for a vector whose labels are those of the definition. *)
Lemma With_after_cleanLabels {A} (new : A) (c : MetricCollector)
    (name : string) (v : MetricVec A) (d : MetricConfig) (labels : GoMap) :
  definitionOf (config c) name = Some d →
  variableLabels (desc v) = Labels d → NoDup (Labels d) →
  match cleanLabels c name labels with
  | Ok cleaned =>
    (labels = None → Labels d = [])
    ∧ GetMetricWith new v cleaned
      = if forallb utf8_ValidString (combination (Labels d) labels)
        then inl (combination (Labels d) labels,
                  {| desc := desc v;
                     children :=
                       <[combination (Labels d) labels :=
                           default new (children v !! combination (Labels d) labels)]>
                         (children v) |})
        else inr ErrLabelValueNotUTF8
  | Panic p => p = PanicAssignNilMap ∧ labels = None ∧ Labels d ≠ []
  | Err _ => False
  end.
Proof.
  intros Hdef Hlabels Hnodup. rewrite labels.cleanLabels_spec, Hdef.
  destruct labels as [m|].
  - split; [done|]. unfold GetMetricWith. rewrite Hlabels.
    rewrite validateValuesInLabels_combination by done.
    destruct (forallb _ _); [|done].
    rewrite updates.labelValues_normalized by done.
    destruct (children v !! _) as [x|] eqn:Hx; cbn [default]; [|done].
    rewrite insert_id by done. by destruct v.
  - destruct (Labels d) as [|l ls] eqn:Hd; [|done].
    split; [done|]. unfold GetMetricWith. rewrite Hlabels. cbn.
    destruct (children v !! []) as [x|] eqn:Hx; cbn [default]; [|done].
    rewrite insert_id by done. by destruct v.
Qed.

Lemma onChild_inserted {A} (f : A → A) (v : MetricVec A) (combo : list string)
    (x : A) :
  onChild f combo {| desc := desc v; children := <[combo := x]> (children v) |}
  = withChild v combo (f x).
Proof.
  unfold onChild, withChild. cbn. by rewrite alter_insert_eq.
Qed.

Lemma outcomeOf_cases (k : Kind) (declared : list string) (value : float64)
    (labels : GoMap) :
  outcomeOf k declared value labels
  = if bool_decide (labels = None ∧ declared ≠ [])
    then Panic PanicAssignNilMap
    else if forallb utf8_ValidString (combination declared labels) then
      if bool_decide (k = Counter) && PrimFloat.ltb value 0
      then Panic PanicCounterDecrease else Ok ()
    else Panic PanicInvalidLabels.
Proof.
  unfold outcomeOf.
  destruct labels as [m|], declared as [|l ls]; case_bool_decide as H;
    try done.
  all: try (by destruct H as [? ?]).
  by destruct H.
Qed.

(** What each operation does, exactly, to a well-formed collector that
    holds the metric. *)
Lemma UpdateGauge_exact (scheme : ValidationScheme) (c : MetricCollector)
    (name : string) (value : float64) (labels : GoMap) (vec : GaugeVec)
    (d : MetricConfig) :
  WellFormed scheme c → gauges c !! name = Some vec →
  definitionOf (config c) name = Some d →
  let combo := combination (Labels d) labels in
  UpdateGauge c name value labels
  = match outcomeOf Gauge (Labels d) value labels with
    | Ok _ => (setGauge name (withChild vec combo value) c, Ok ())
    | other => (c, other)
    end.
Proof.
  intros Hwf Hvec Hdef combo. unfold GaugeVec, CounterVec in *.
  destruct (updates.registered_definition scheme c Gauge name (desc vec) Hwf)
    as (d' & Hdef' & _ & _ & Hlabels & Hnodup);
    [by unfold descAt, GaugeVec, CounterVec in *; rewrite Hvec|].
  assert (d' = d) as -> by congruence.
  pose proof (With_after_cleanLabels 0%float c name vec d labels
                Hdef Hlabels Hnodup) as Hwith.
  unfold UpdateGauge. unfold GaugeVec in *. rewrite Hvec, outcomeOf_cases.
  destruct (cleanLabels c name labels) as [cleaned|e|p]; [|done|].
  - destruct Hwith as [Hnil ->].
    rewrite bool_decide_eq_false_2 by (intros [? ?]; auto).
    fold combo. destruct (forallb _ combo); [|done]. cbn.
    unfold Gauge_Set. by rewrite onChild_inserted.
  - destruct Hwith as (-> & -> & Hne). by rewrite bool_decide_eq_true_2.
Qed.

Lemma IncrementCounterBy_exact (scheme : ValidationScheme) (c : MetricCollector)
    (name : string) (value : float64) (labels : GoMap) (vec : CounterVec)
    (d : MetricConfig) :
  WellFormed scheme c → counters c !! name = Some vec →
  definitionOf (config c) name = Some d →
  let combo := combination (Labels d) labels in
  let old := default 0%float (children vec !! combo) in
  IncrementCounterBy c name value labels
  = match outcomeOf Counter (Labels d) value labels with
    | Ok _ => (setCounter name (withChild vec combo (PrimFloat.add old value)) c, Ok ())
    | Panic PanicCounterDecrease =>
      (setCounter name (withChild vec combo old) c, Panic PanicCounterDecrease)
    | other => (c, other)
    end.
Proof.
  intros Hwf Hvec Hdef combo old. unfold GaugeVec, CounterVec in *.
  destruct (updates.registered_definition scheme c Counter name (desc vec) Hwf)
    as (d' & Hdef' & _ & _ & Hlabels & Hnodup);
    [by unfold descAt, GaugeVec, CounterVec in *; rewrite Hvec|].
  assert (d' = d) as -> by congruence.
  pose proof (With_after_cleanLabels 0%float c name vec d labels
                Hdef Hlabels Hnodup) as Hwith.
  unfold IncrementCounterBy. unfold CounterVec in *. rewrite Hvec, outcomeOf_cases.
  destruct (cleanLabels c name labels) as [cleaned|e|p]; [|done|].
  - destruct Hwith as [Hnil ->].
    rewrite bool_decide_eq_false_2 by (intros [? ?]; auto).
    fold combo. destruct (forallb _ combo); [|done]. cbn.
    unfold Counter_Add. destruct (PrimFloat.ltb value 0); [done|].
    by rewrite onChild_inserted.
  - destruct Hwith as (-> & -> & Hne). by rewrite bool_decide_eq_true_2.
Qed.

Lemma ObserveHistogram_exact (scheme : ValidationScheme) (c : MetricCollector)
    (name : string) (value : float64) (labels : GoMap) (vec : HistogramVec)
    (d : MetricConfig) :
  WellFormed scheme c → histograms c !! name = Some vec →
  definitionOf (config c) name = Some d →
  let combo := combination (Labels d) labels in
  let old := default [] (children (histogramVec vec) !! combo) in
  ObserveHistogram c name value labels
  = match outcomeOf Histogram (Labels d) value labels with
    | Ok _ =>
      (setHistogram name
         {| histogramVec := withChild (histogramVec vec) combo (old ++ [value])%list;
            histogramBuckets := histogramBuckets vec |} c, Ok ())
    | other => (c, other)
    end.
Proof.
  intros Hwf Hvec Hdef combo old. unfold GaugeVec, CounterVec in *.
  destruct (updates.registered_definition scheme c Histogram name
              (desc (histogramVec vec)) Hwf)
    as (d' & Hdef' & _ & _ & Hlabels & Hnodup);
    [by unfold descAt, GaugeVec, CounterVec in *; rewrite Hvec|].
  assert (d' = d) as -> by congruence.
  pose proof (With_after_cleanLabels [] c name (histogramVec vec) d labels
                Hdef Hlabels Hnodup) as Hwith.
  unfold ObserveHistogram. rewrite Hvec, outcomeOf_cases.
  destruct (cleanLabels c name labels) as [cleaned|e|p]; [|done|].
  - destruct Hwith as [Hnil ->].
    rewrite bool_decide_eq_false_2 by (intros [? ?]; auto).
    fold combo. destruct (forallb _ combo); [|done]. cbn.
    unfold Observe. by rewrite onChild_inserted.
  - destruct Hwith as (-> & -> & Hne). by rewrite bool_decide_eq_true_2.
Qed.

Lemma ObserveSummary_exact (scheme : ValidationScheme) (c : MetricCollector)
    (name : string) (value : float64) (labels : GoMap) (vec : SummaryVec)
    (d : MetricConfig) :
  WellFormed scheme c → summaries c !! name = Some vec →
  definitionOf (config c) name = Some d →
  let combo := combination (Labels d) labels in
  let old := default [] (children (summaryVec vec) !! combo) in
  ObserveSummary c name value labels
  = match outcomeOf Summary (Labels d) value labels with
    | Ok _ =>
      (setSummary name
         {| summaryVec := withChild (summaryVec vec) combo (old ++ [value])%list;
            summaryObjectives := summaryObjectives vec |} c, Ok ())
    | other => (c, other)
    end.
Proof.
  intros Hwf Hvec Hdef combo old. unfold GaugeVec, CounterVec in *.
  destruct (updates.registered_definition scheme c Summary name
              (desc (summaryVec vec)) Hwf)
    as (d' & Hdef' & _ & _ & Hlabels & Hnodup);
    [by unfold descAt, GaugeVec, CounterVec in *; rewrite Hvec|].
  assert (d' = d) as -> by congruence.
  pose proof (With_after_cleanLabels [] c name (summaryVec vec) d labels
                Hdef Hlabels Hnodup) as Hwith.
  unfold ObserveSummary. rewrite Hvec, outcomeOf_cases.
  destruct (cleanLabels c name labels) as [cleaned|e|p]; [|done|].
  - destruct Hwith as [Hnil ->].
    rewrite bool_decide_eq_false_2 by (intros [? ?]; auto).
    fold combo. destruct (forallb _ combo); [|done]. cbn.
    unfold Observe. by rewrite onChild_inserted.
  - destruct Hwith as (-> & -> & Hne). by rewrite bool_decide_eq_true_2.
Qed.

(** How an update of a registered metric of a well-formed collector
    ends. *)
Lemma update_result (scheme : ValidationScheme) (c : MetricCollector)
    (k : Kind) (name : string) (d : MetricConfig) (value : float64)
    (labels : GoMap) :
  WellFormed scheme c →
  registeredAs c k name →
  definitionOf (config c) name = Some d →
  (update k c name value labels).2 = outcomeOf k (Labels d) value labels.
Proof.
  intros Hwf [dsc Hreg] Hdef.
  destruct k; cbn [update descAt] in *.
  - destruct (gauges c !! name) as [vec|] eqn:Hvec; [|done].
    rewrite (UpdateGauge_exact scheme c name value labels vec d) by done.
    by destruct (outcomeOf _ _ _ _) as [[]|?|?].
  - destruct (counters c !! name) as [vec|] eqn:Hvec; [|done].
    rewrite (IncrementCounterBy_exact scheme c name value labels vec d) by done.
    by destruct (outcomeOf _ _ _ _) as [[]|?|[]].
  - destruct (histograms c !! name) as [vec|] eqn:Hvec; [|done].
    rewrite (ObserveHistogram_exact scheme c name value labels vec d) by done.
    by destruct (outcomeOf _ _ _ _) as [[]|?|?].
  - destruct (summaries c !! name) as [vec|] eqn:Hvec; [|done].
    rewrite (ObserveSummary_exact scheme c name value labels vec d) by done.
    by destruct (outcomeOf _ _ _ _) as [[]|?|?].
Qed.

Lemma outcomeOf_not_Err (k : Kind) (declared : list string) (value : float64)
    (labels : GoMap) (e : error) :
  outcomeOf k declared value labels ≠ Err e.
Proof.
  rewrite outcomeOf_cases. case_bool_decide; [done|].
  destruct (forallb _ _); [|done]. by destruct (_ && _).
Qed.

(** The only error an update of a well-formed collector returns is the
    not-found error of its kind, for a name its map does not hold. *)
Lemma update_Err (scheme : ValidationScheme) (c : MetricCollector)
    (k : Kind) (name : string) (value : float64) (labels : GoMap) (e : error) :
  WellFormed scheme c →
  (update k c name value labels).2 = Err e →
  e = notFound k name ∧ ¬ registeredAs c k name.
Proof.
  intros Hwf Herr.
  destruct (decide (registeredAs c k name)) as [Hreg|Hreg].
  - exfalso. destruct Hreg as [dsc Hd].
    destruct (updates.registered_definition scheme c k name dsc Hwf Hd)
      as (d & Hdef & _).
    rewrite (update_result scheme c k name d) in Herr by (done || by eexists).
    by apply outcomeOf_not_Err in Herr.
  - rewrite updates.update_unregistered in Herr by done.
    by injection Herr as <-.
Qed.

(** An update with a label map that is not nil does not panic over the
    map. *)
Lemma update_not_nil (k : Kind) (c : MetricCollector) (name : string)
    (value : float64) (m : gmap string string) :
  (update k c name value (Some m)).2 ≠ Panic PanicAssignNilMap.
Proof.
  assert (Hclean : ∀ p, cleanLabels c name (Some m) ≠ Panic p).
  { intros p. rewrite labels.cleanLabels_spec.
    by destruct (definitionOf (config c) name). }
  destruct k; cbn [update];
    [unfold UpdateGauge; destruct (gauges c !! name)
    |unfold IncrementCounterBy; destruct (counters c !! name)
    |unfold ObserveHistogram; destruct (histograms c !! name)
    |unfold ObserveSummary; destruct (summaries c !! name)];
    try done.
  all: destruct (cleanLabels c name (Some m)) as [cleaned|e|p] eqn:Hc;
    [|done|by destruct (Hclean p)].
  all: destruct (GetMetricWith _ _ cleaned) as [[lvs vec]|]; try done.
  by destruct (Counter_Add value lvs vec).
Qed.



(** X9. Last write wins: on a built collector, an [UpdateGauge] that
    succeeds leaves the value it was given at the combination the labels
    stand for, and leaves every other combination of every gauge, and
    every counter, histogram and summary, as they were. *)
Theorem gauge_last_write_wins (scheme : ValidationScheme) (cfg : Config)
    (reg r : Registry) (c0 : MetricCollector) (history : list call)
    (name : string) (d : MetricConfig) (value : float64) (labels : GoMap) :
  NewMetricCollector scheme (Some cfg) reg = (r, Ok c0) →
  let c := (run c0 history).1 in
  let c' := (UpdateGauge c name value labels).1 in
  (UpdateGauge c name value labels).2 = Ok () →
  definitionOf cfg name = Some d →
  gaugeValue c' name (combination (Labels d) labels) = Some value
  ∧ (∀ n combo, (n, combo) ≠ (name, combination (Labels d) labels) →
       gaugeValue c' n combo = gaugeValue c n combo)
  ∧ counters c' = counters c ∧ histograms c' = histograms c
  ∧ summaries c' = summaries c.
Proof.
  intros Hbuilt c c' Hok Hdef. subst c'.
  destruct (updates.built_WellFormed scheme cfg reg r c0 history Hbuilt)
    as [Hcfg Hwf].
  fold c in Hcfg, Hwf. rewrite <- Hcfg in Hdef.
  destruct (gauges c !! name) as [vec|] eqn:Hvec;
    [|by unfold UpdateGauge in Hok; unfold GaugeVec in *; rewrite Hvec in Hok].
  rewrite (UpdateGauge_exact scheme c name value labels vec d) in Hok |- * by done.
  destruct (outcomeOf _ _ _ _); try done. unfold gaugeValue. cbn.
  split; [by rewrite !lookup_insert_eq; cbn; rewrite lookup_insert_eq|].
  split; [|done]. intros n combo Hne.
  destruct (decide (n = name)) as [->|Hn].
  - rewrite lookup_insert_eq. unfold GaugeVec in *. rewrite Hvec. cbn.
    rewrite lookup_insert_ne; [done|]. congruence.
  - by rewrite lookup_insert_ne.
Qed.

Lemma gauge_last_write_wins_witness :
  gaugeValue (UpdateGauge example.collector "job_last_success" 7
                (Some {["job_name" := "backup"]})).1
             "job_last_success" ["backup"; "<missing>"] = Some 7%float.
Proof.
  destruct (gauge_last_write_wins LegacyValidation example.cfg NewRegistry
              (registry example.collector) example.collector []
              "job_last_success" example.jobLastSuccess 7
              (Some {["job_name" := "backup"]})) as [Hset _].
  - vm_compute. reflexivity.
  - vm_compute. reflexivity.
  - vm_compute. reflexivity.
  - exact Hset.
Defined.

(** X10. Setting a gauge is idempotent: an [UpdateGauge] that has
    succeeded, made again with the same arguments, succeeds again and
    changes nothing (on any collector, built or not). *)
Theorem UpdateGauge_idempotent (c c1 : MetricCollector) (name : string)
    (value : float64) (labels : GoMap) :
  UpdateGauge c name value labels = (c1, Ok ()) →
  UpdateGauge c1 name value labels = (c1, Ok ()).
Proof.
  unfold UpdateGauge.
  destruct (gauges c !! name) as [vec|] eqn:Hvec; [|by intros [= ]].
  destruct (cleanLabels c name labels) as [cleaned|e|p] eqn:Hclean;
    [|by intros [= ]..].
  destruct (GetMetricWith 0%float vec cleaned) as [[lvs vec']|e] eqn:Hwith;
    [|by intros [= ]].
  intros [= <-]. cbn [gauges setGauge]. rewrite lookup_insert_eq.
  change (cleanLabels (setGauge name (Gauge_Set value lvs vec') c) name labels)
    with (cleanLabels c name labels).
  rewrite Hclean.
  revert Hwith. unfold GetMetricWith, Gauge_Set, onChild. cbn [desc children].
  destruct (validateValuesInLabels cleaned _) eqn:Hvalid; [done|].
  destruct (labelValues _ cleaned) as [lvs'|] eqn:Hvalues; [|done].
  intros Hwith.
  assert (lvs' = lvs ∧ desc vec' = desc vec
          ∧ is_Some (children vec' !! lvs)) as (-> & Hdesc & [x Hx]).
  { destruct (children vec !! lvs') eqn:Hchild; injection Hwith as <- <-;
      cbn; rewrite ?lookup_insert_eq; eauto. }
  rewrite Hdesc, Hvalid, Hvalues, lookup_alter_eq, Hx. cbn.
  unfold setGauge. cbn. rewrite insert_insert_eq.
  do 3 f_equal. f_equal. apply map_eq. intros i.
  destruct (decide (i = lvs)) as [->|Hne].
  - by rewrite !lookup_alter_eq, Hx.
  - by rewrite !lookup_alter_ne.
Qed.

Lemma UpdateGauge_idempotent_witness :
  let once :=
    (UpdateGauge example.collector "job_last_success" 7
                 (Some {["job_name" := "backup"]})).1 in
  UpdateGauge once "job_last_success" 7 (Some {["job_name" := "backup"]})
  = (once, Ok ()).
Proof.
  apply (UpdateGauge_idempotent example.collector).
  vm_compute. reflexivity.
Defined.

(** X11. On a built collector, an [ObserveHistogram] that succeeds adds
    the value after what the combination had observed, and leaves every
    other combination of every histogram, and every gauge, counter and
    summary, as they were. *)
Theorem histogram_observation_appended (scheme : ValidationScheme)
    (cfg : Config) (reg r : Registry) (c0 : MetricCollector)
    (history : list call) (name : string) (d : MetricConfig)
    (value : float64) (labels : GoMap) :
  NewMetricCollector scheme (Some cfg) reg = (r, Ok c0) →
  let c := (run c0 history).1 in
  let c' := (ObserveHistogram c name value labels).1 in
  (ObserveHistogram c name value labels).2 = Ok () →
  definitionOf cfg name = Some d →
  histogramObservations c' name (combination (Labels d) labels)
  = (histogramObservations c name (combination (Labels d) labels) ++ [value])%list
  ∧ (∀ n combo, (n, combo) ≠ (name, combination (Labels d) labels) →
       histogramObservations c' n combo = histogramObservations c n combo)
  ∧ gauges c' = gauges c ∧ counters c' = counters c
  ∧ summaries c' = summaries c.
Proof.
  intros Hbuilt c c' Hok Hdef. subst c'.
  destruct (updates.built_WellFormed scheme cfg reg r c0 history Hbuilt)
    as [Hcfg Hwf].
  fold c in Hcfg, Hwf. rewrite <- Hcfg in Hdef.
  destruct (histograms c !! name) as [vec|] eqn:Hvec;
    [|by unfold ObserveHistogram in Hok; rewrite Hvec in Hok].
  rewrite (ObserveHistogram_exact scheme c name value labels vec d)
    in Hok |- * by done.
  destruct (outcomeOf _ _ _ _); try done. unfold histogramObservations. cbn.
  split; [by rewrite !lookup_insert_eq, Hvec; cbn; rewrite lookup_insert_eq|].
  split; [|done]. intros n combo Hne.
  destruct (decide (n = name)) as [->|Hn].
  - rewrite lookup_insert_eq, Hvec. cbn.
    rewrite lookup_insert_ne; [done|]. congruence.
  - by rewrite lookup_insert_ne.
Qed.

Lemma histogram_observation_appended_witness :
  histogramObservations
    (ObserveHistogram example.collector "job_duration_seconds" 3
                      (Some {["job_name" := "backup"]})).1
    "job_duration_seconds" ["backup"; "<missing>"]
  = [3%float].
Proof.
  destruct (histogram_observation_appended LegacyValidation example.cfg
              NewRegistry (registry example.collector) example.collector []
              "job_duration_seconds" example.jobDurationSeconds 3
              (Some {["job_name" := "backup"]})) as [Hset _].
  - vm_compute. reflexivity.
  - vm_compute. reflexivity.
  - vm_compute. reflexivity.
  - exact Hset.
Defined.

(** X12. On a built collector, an [ObserveSummary] that succeeds adds
    the value after what the combination had observed, and leaves every
    other combination of every summary, and every gauge, counter and
    histogram, as they were. *)
Theorem summary_observation_appended (scheme : ValidationScheme)
    (cfg : Config) (reg r : Registry) (c0 : MetricCollector)
    (history : list call) (name : string) (d : MetricConfig)
    (value : float64) (labels : GoMap) :
  NewMetricCollector scheme (Some cfg) reg = (r, Ok c0) →
  let c := (run c0 history).1 in
  let c' := (ObserveSummary c name value labels).1 in
  (ObserveSummary c name value labels).2 = Ok () →
  definitionOf cfg name = Some d →
  summaryObservations c' name (combination (Labels d) labels)
  = (summaryObservations c name (combination (Labels d) labels) ++ [value])%list
  ∧ (∀ n combo, (n, combo) ≠ (name, combination (Labels d) labels) →
       summaryObservations c' n combo = summaryObservations c n combo)
  ∧ gauges c' = gauges c ∧ counters c' = counters c
  ∧ histograms c' = histograms c.
Proof.
  intros Hbuilt c c' Hok Hdef. subst c'.
  destruct (updates.built_WellFormed scheme cfg reg r c0 history Hbuilt)
    as [Hcfg Hwf].
  fold c in Hcfg, Hwf. rewrite <- Hcfg in Hdef.
  destruct (summaries c !! name) as [vec|] eqn:Hvec;
    [|by unfold ObserveSummary in Hok; rewrite Hvec in Hok].
  rewrite (ObserveSummary_exact scheme c name value labels vec d)
    in Hok |- * by done.
  destruct (outcomeOf _ _ _ _); try done. unfold summaryObservations. cbn.
  split; [by rewrite !lookup_insert_eq, Hvec; cbn; rewrite lookup_insert_eq|].
  split; [|done]. intros n combo Hne.
  destruct (decide (n = name)) as [->|Hn].
  - rewrite lookup_insert_eq, Hvec. cbn.
    rewrite lookup_insert_ne; [done|]. congruence.
  - by rewrite lookup_insert_ne.
Qed.

Lemma summary_observation_appended_witness :
  let c := example.build LegacyValidation
             (example.withMetrics [example.jobLatency]) in
  summaryObservations
    (ObserveSummary c "job_latency" 3 (Some ∅)).1 "job_latency" ["<missing>"]
  = [3%float].
Proof.
  destruct (summary_observation_appended LegacyValidation
              (example.withMetrics [example.jobLatency]) NewRegistry
              (registry (example.build LegacyValidation
                           (example.withMetrics [example.jobLatency])))
              (example.build LegacyValidation
                 (example.withMetrics [example.jobLatency])) []
              "job_latency" example.jobLatency 3 (Some ∅)) as [Hset _].
  - vm_compute. reflexivity.
  - vm_compute. reflexivity.
  - vm_compute. reflexivity.
  - exact Hset.
Defined.

Lemma normalized_agree (declared : list string) (m1 m2 : gmap string string) :
  (∀ l, l ∈ declared → default Filler (m1 !! l) = default Filler (m2 !! l)) →
  normalized declared m1 = normalized declared m2.
Proof.
  intros Hagree. apply map_eq. intros k. rewrite !labels.normalized_lookup.
  case_decide; [|done]. by rewrite Hagree.
Qed.

(** X13. Only the declared labels count: two label maps that give every
    declared label the same value, where no value counts as the filler,
    make an update operation return the same result and leave the same
    collector. Labels the metric does not declare have no effect, and
    leaving a label out is the same as giving it the filler. *)
Theorem undeclared_labels_no_effect (k : Kind) (c : MetricCollector)
    (name : string) (d : MetricConfig) (value : float64)
    (m1 m2 : gmap string string) :
  definitionOf (config c) name = Some d →
  (∀ l, l ∈ Labels d → default Filler (m1 !! l) = default Filler (m2 !! l)) →
  update k c name value (Some m1) = update k c name value (Some m2).
Proof.
  intros Hdef Hagree.
  assert (Hclean : cleanLabels c name (Some m1) = cleanLabels c name (Some m2)).
  { rewrite !labels.cleanLabels_spec, Hdef. by rewrite (normalized_agree _ m1 m2). }
  destruct k; cbn [update];
    [unfold UpdateGauge|unfold IncrementCounterBy
    |unfold ObserveHistogram|unfold ObserveSummary];
    by rewrite Hclean.
Qed.

Lemma undeclared_labels_no_effect_witness :
  update Gauge example.collector "job_last_success" 7
         (Some {["job_name" := "backup"; "extra" := "drop-me"]})
  = update Gauge example.collector "job_last_success" 7
           (Some {["job_name" := "backup"; "environment" := "<missing>"]}).
Proof.
  apply (undeclared_labels_no_effect Gauge example.collector
           "job_last_success" example.jobLastSuccess).
  - vm_compute. reflexivity.
  - intros l [->|[->|[]%elem_of_nil]%elem_of_cons]%elem_of_cons;
      vm_compute; reflexivity.
Defined.

(** X14. Normalization is idempotent: the label map [cleanLabels]
    returns is returned as it is when it is cleaned again. *)
Theorem cleanLabels_idempotent (c : MetricCollector) (name : string)
    (labels cleaned : GoMap) :
  cleanLabels c name labels = Ok cleaned →
  cleanLabels c name cleaned = Ok cleaned.
Proof.
  rewrite !labels.cleanLabels_spec.
  destruct (definitionOf (config c) name) as [d|]; [|done].
  destruct labels as [m|].
  - intros [= <-]. do 2 f_equal. apply normalized_agree. intros l Hl.
    by rewrite labels.normalized_lookup, decide_True.
  - by destruct (Labels d); intros [= <-].
Qed.

Lemma cleanLabels_idempotent_witness :
  cleanLabels example.collector "job_last_success"
    (Some {["job_name" := "backup"; "environment" := "<missing>"]})
  = Ok (Some {["job_name" := "backup"; "environment" := "<missing>"]}).
Proof.
  apply (cleanLabels_idempotent example.collector "job_last_success"
           (Some {["job_name" := "backup"; "extra" := "drop-me"]})).
  vm_compute. reflexivity.
Defined.

(** X15. On a built collector, an increment of a registered counter by
    a negative value, with labels that are in order, panics after [With]
    has made the combination: the combination is then there, and every
    counter value, and every gauge, histogram and summary, is as it was. *)
Theorem negative_increment_effect (scheme : ValidationScheme) (cfg : Config)
    (reg r : Registry) (c0 : MetricCollector) (history : list call)
    (name : string) (d : MetricConfig) (value : float64) (labels : GoMap) :
  NewMetricCollector scheme (Some cfg) reg = (r, Ok c0) →
  let c := (run c0 history).1 in
  let c' := (IncrementCounterBy c name value labels).1 in
  registeredAs c Counter name →
  definitionOf cfg name = Some d →
  (labels = None → Labels d = []) →
  forallb utf8_ValidString (combination (Labels d) labels) = true →
  PrimFloat.ltb value 0 = true →
  (IncrementCounterBy c name value labels).2 = Panic PanicCounterDecrease
  ∧ is_Some (counters c' !! name
             ≫= λ v, children v !! combination (Labels d) labels)
  ∧ (∀ n combo, counterValue c' n combo = counterValue c n combo)
  ∧ gauges c' = gauges c ∧ histograms c' = histograms c
  ∧ summaries c' = summaries c.
Proof.
  intros Hbuilt c c' [dsc Hreg] Hdef Hnil Hvalid Hneg. subst c'.
  destruct (updates.built_WellFormed scheme cfg reg r c0 history Hbuilt)
    as [Hcfg Hwf].
  fold c in Hcfg, Hwf. rewrite <- Hcfg in Hdef. cbn [descAt] in Hreg.
  destruct (counters c !! name) as [vec|] eqn:Hvec; [|done].
  rewrite (IncrementCounterBy_exact scheme c name value labels vec d) by done.
  rewrite outcomeOf_cases, Hvalid, Hneg.
  rewrite bool_decide_eq_false_2 by (intros [? ?]; auto).
  rewrite bool_decide_eq_true_2 by done. cbn.
  split; [done|]. rewrite lookup_insert_eq. cbn. rewrite lookup_insert_eq.
  split; [eauto|]. split; [|done].
  intros n combo. unfold counterValue. cbn.
  destruct (decide (n = name)) as [->|Hn]; [|by rewrite lookup_insert_ne].
  rewrite lookup_insert_eq, Hvec. cbn.
  destruct (decide (combo = combination (Labels d) labels)) as [->|Hc].
  - rewrite lookup_insert_eq. cbn. by destruct (children vec !! _).
  - by rewrite lookup_insert_ne.
Qed.

Lemma negative_increment_effect_witness :
  counterValue (IncrementCounterBy example.collector "job_failures_total" (-1)
                  (Some ∅)).1
               "job_failures_total" ["<missing>"; "<missing>"; "<missing>"]
  = counterValue example.collector "job_failures_total"
                 ["<missing>"; "<missing>"; "<missing>"].
Proof.
  destruct (negative_increment_effect LegacyValidation example.cfg NewRegistry
              (registry example.collector) example.collector []
              "job_failures_total" example.jobFailuresTotal (-1) (Some ∅))
    as (_ & _ & Hsame & _).
  - vm_compute. reflexivity.
  - vm_compute. eexists. reflexivity.
  - vm_compute. reflexivity.
  - discriminate.
  - vm_compute. reflexivity.
  - vm_compute. reflexivity.
  - apply Hsame.
Defined.

End behaviour.

(* ================================================================== *)
(** * The push command *)
(* ================================================================== *)

Module pushing.
Import commands.

#[local] Arguments equalsSign : simpl never.

Lemma append_String (c : Ascii.ascii) (a b : string) :
  String c a ++ b = String c (a ++ b).
Proof. reflexivity. Qed.

Lemma substring_whole (s : string) : String.substring 0 (String.length s) s = s.
Proof. induction s as [|c s IH]; cbn; [done|]. by rewrite IH. Qed.

Lemma substring_prefix (a b : string) :
  String.substring 0 (String.length a) (a ++ b) = a.
Proof.
  induction a as [|c a IH]; [by destruct b|].
  rewrite append_String. cbn. by rewrite IH.
Qed.

Lemma substring_suffix (a b : string) :
  String.substring (String.length a) (String.length b) (a ++ b) = b.
Proof.
  induction a as [|c a IH]; [apply substring_whole|].
  rewrite append_String. cbn. apply IH.
Qed.

Lemma length_append (a b : string) :
  String.length (a ++ b) = String.length a + String.length b.
Proof.
  induction a as [|c a IH]; [done|]. rewrite append_String. cbn. by rewrite IH.
Qed.

Lemma append_empty (s : string) : s ++ "" = s.
Proof. induction s as [|c s IH]; [done|]. by rewrite append_String, IH. Qed.

Lemma append_assoc (a b c : string) : (a ++ b) ++ c = a ++ (b ++ c).
Proof.
  induction a as [|x a IH]; [done|]. rewrite !append_String. by rewrite IH.
Qed.

Lemma hasEqualsSign_append (a b : string) :
  hasEqualsSign (a ++ b) = hasEqualsSign a || hasEqualsSign b.
Proof.
  induction a as [|c a IH]; [done|]. rewrite append_String. cbn.
  by rewrite IH, orb_assoc.
Qed.

(** The loop, at a text split into what it has passed, without [=], and
    what is pending. *)
Lemma parseLabelFrom_spec (passed pending : string) :
  hasEqualsSign passed = false →
  if hasEqualsSign pending then
    ∃ key val,
      parseLabelFrom (passed ++ pending) (String.length passed) pending
      = (passed ++ key, val, true)
      ∧ pending = key ++ String equalsSign val
      ∧ hasEqualsSign (passed ++ key) = false
  else
    parseLabelFrom (passed ++ pending) (String.length passed) pending
    = ("", "", false).
Proof.
  revert passed. induction pending as [|c rest IH]; intros passed Hpassed;
    cbn [hasEqualsSign parseLabelFrom]; [done|].
  destruct (Ascii.eqb_spec c equalsSign) as [->|Hc]; cbn [orb].
  - exists "", rest. split; [|split; [done|]].
    + f_equal. f_equal.
      * by rewrite substring_prefix, append_empty.
      * replace (String.length (passed ++ String equalsSign rest)
                 - S (String.length passed)) with (String.length rest)
          by (rewrite length_append; cbn; lia).
        change (String equalsSign rest) with (String equalsSign "" ++ rest).
        rewrite <- append_assoc.
        replace (S (String.length passed))
          with (String.length (passed ++ String equalsSign ""))
          by (rewrite length_append; cbn; lia).
        apply substring_suffix.
    + by rewrite hasEqualsSign_append, Hpassed.
  - assert (Hstep : hasEqualsSign (passed ++ String c "") = false).
    { rewrite hasEqualsSign_append, Hpassed. cbn.
      by destruct (Ascii.eqb_spec c equalsSign). }
    specialize (IH (passed ++ String c "") Hstep).
    rewrite !append_assoc, length_append in IH.
    change (String c "" ++ rest) with (String c rest) in IH.
    change (String.length (String c "")) with 1 in IH.
    replace (String.length passed + 1) with (S (String.length passed)) in IH by lia.
    destruct (hasEqualsSign rest); [|done].
    destruct IH as (key & val & Hparse & -> & Hkey).
    exists (String c key), val. rewrite Hparse.
    rewrite !append_assoc in *. done.
Qed.

Lemma parseLabel_split (label : string) :
  if hasEqualsSign label then
    ∃ key val, parseLabel label = (key, val, true)
               ∧ label = key ++ String equalsSign val
               ∧ hasEqualsSign key = false
  else parseLabel label = ("", "", false).
Proof. apply (parseLabelFrom_spec "" label). done. Qed.

(** X16. [parseLabel] fails exactly on the labels without an equals
    sign, and splits any other at its first one: the key is what stands
    before it and has none, the value is all that follows. *)
Theorem parseLabel_spec (label : string) :
  (hasEqualsSign label = false → parseLabel label = ("", "", false))
  ∧ (hasEqualsSign label = true →
     ∃ key val, parseLabel label = (key, val, true)
                ∧ label = key ++ String equalsSign val
                ∧ hasEqualsSign key = false).
Proof.
  pose proof (parseLabel_split label) as H.
  destruct (hasEqualsSign label); split; done.
Qed.

Lemma parseLabel_joined_aux (key val : string) :
  hasEqualsSign key = false →
  parseLabel (key ++ String equalsSign val) = (key, val, true).
Proof.
  intros Hkey.
  pose proof (parseLabel_split (key ++ String equalsSign val)) as H.
  rewrite hasEqualsSign_append in H. cbn [hasEqualsSign] in H.
  rewrite Ascii.eqb_refl, orb_true_r in H.
  destruct H as (key' & val' & Hparse & Hsplit & Hkey').
  rewrite Hparse.
  assert (key' = key ∧ val' = val) as [-> ->]; [|done].
  clear Hparse. revert key' Hsplit Hkey'.
  induction key as [|c key IH]; intros key' Hsplit Hkey'.
  - destruct key' as [|c' key'].
    + by injection Hsplit as ->.
    + rewrite append_String in Hsplit. injection Hsplit as <- _.
      cbn in Hkey'. by rewrite Ascii.eqb_refl in Hkey'.
  - cbn in Hkey. apply orb_false_iff in Hkey as [Hc Hkey].
    destruct key' as [|c' key'].
    + rewrite append_String in Hsplit. injection Hsplit as -> _.
      by rewrite Ascii.eqb_refl in Hc.
    + rewrite !append_String in Hsplit. injection Hsplit as -> Hsplit.
      cbn in Hkey'. apply orb_false_iff in Hkey' as [_ Hkey'].
      destruct (IH Hkey key' Hsplit Hkey') as [-> ->]. done.
Qed.

(** X17. A key without an equals sign and a value, joined by an equals
    sign, are what [parseLabel] gives back, whatever the value holds. *)
Theorem parseLabel_joined (key val : string) :
  hasEqualsSign key = false →
  parseLabel (key ++ String equalsSign val) = (key, val, true).
Proof. apply parseLabel_joined_aux. Qed.

Lemma parseLabel_joined_witness :
  parseLabel "job_name=a=b" = ("job_name", "a=b", true).
Proof. apply (parseLabel_joined "job_name" "a=b"). reflexivity. Defined.

(** X18. The push command accepts exactly the metric types that the
    validation of a configuration knows. *)
Theorem isValidMetricType_knownType (metricType : string) :
  isValidMetricType metricType = true ↔ config.knownType metricType.
Proof.
  unfold isValidMetricType, validTypes, config.knownType.
  destruct (decide (metricType = "gauge")) as [->|Hg]; [by split; auto|].
  destruct (decide (metricType = "counter")) as [->|Hc]; [by split; auto|].
  destruct (decide (metricType = "histogram")) as [->|Hh]; [by split; auto|].
  destruct (decide (metricType = "summary")) as [->|Hs]; [by split; auto 6|].
  rewrite !lookup_insert_ne, lookup_singleton_ne by done. cbn.
  split; [done|]. intros [?|[?|[?|?]]]; done.
Qed.

Lemma parseLabels_app (l1 l2 : list string) (labels : gmap string string) :
  parseLabels (l1 ++ l2) labels
  = match parseLabels l1 labels with
    | inl m => parseLabels l2 m
    | inr e => inr e
    end.
Proof.
  revert labels. induction l1 as [|l l1 IH]; intros labels; cbn; [done|].
  destruct (parseLabel l) as [[key val] []]; [apply IH|done].
Qed.

(** X19. The loop over the label flags lets the last label of a key
    win: a label added after labels that parse sets its key to its value
    in the map they gave, over the value the key had. *)
Theorem parseLabels_last_wins (flagsLabels : list string)
    (labels : gmap string string) (key val : string) :
  hasEqualsSign key = false →
  parseLabels flagsLabels ∅ = inl labels →
  parseLabels (flagsLabels ++ [key ++ String equalsSign val]) ∅
  = inl (<[key := val]> labels).
Proof.
  intros Hkey Hparse. rewrite parseLabels_app, Hparse. cbn.
  by rewrite parseLabel_joined_aux.
Qed.

Lemma parseLabels_last_wins_witness :
  parseLabels (["env=dev"] ++ ["env=prod"]) ∅
  = inl (<["env" := "prod"]> {["env" := "dev"]}).
Proof.
  apply (parseLabels_last_wins ["env=dev"] {["env" := "dev"]} "env" "prod");
    reflexivity.
Defined.

Lemma parseLabels_error (flagsLabels : list string) (labels : gmap string string) :
  Exists (λ l, hasEqualsSign l = false) flagsLabels →
  ∃ e, parseLabels flagsLabels labels = inr e.
Proof.
  intros Hex. revert labels.
  induction flagsLabels as [|l ls IH]; intros labels; [by inversion Hex|].
  cbn. pose proof (parseLabel_split l) as Hl.
  destruct (hasEqualsSign l) eqn:Hhas.
  - destruct Hl as (key & val & -> & _). apply IH.
    inversion Hex; subst; [congruence|done].
  - rewrite Hl. eauto.
Qed.

(** X20. [Push] hands at most one request to the client, and none when
    the type is not a metric type or a label has no equals sign; it
    returns no error only when it has posted one update, to the URL of
    the flags, with their name, type and value and a label map that is
    not nil, and the answer was status 200. *)
Theorem Push_posts (newRequest : string → bool)
    (clientDo : string → web.MetricUpdate → option nat) (flags : FlagsPush) :
  (length (Push newRequest clientDo flags).1 ≤ 1)%nat
  ∧ (isValidMetricType (Typ flags) = false
     ∨ Exists (λ l, hasEqualsSign l = false) (Labels flags) →
     (Push newRequest clientDo flags).1 = []
     ∧ is_Some (Push newRequest clientDo flags).2)
  ∧ ((Push newRequest clientDo flags).2 = None →
     ∃ labels,
       let update := {| web.Name := Name flags; web.Typ := Typ flags;
                        web.Value := Value flags; web.Labels := Some labels |} in
       (Push newRequest clientDo flags).1 = [(URL flags, update)]
       ∧ clientDo (URL flags) update = Some 200).
Proof.
  unfold Push, sendMetricUpdate.
  destruct (isValidMetricType (Typ flags)) eqn:Htype; cbn [negb].
  2: { split; [cbn; lia|]. split; [eauto|done]. }
  pose proof (parseLabels_error (Labels flags) ∅) as Herr.
  destruct (parseLabels (Labels flags) ∅) as [labels|e].
  2: { split; [cbn; lia|]. split; [eauto|done]. }
  assert (Hnone : ¬ Exists (λ l, hasEqualsSign l = false) (Labels flags)).
  { intros [e He]%Herr. done. }
  destruct (marshals _); cbn [negb].
  2: { split; [cbn; lia|]. split; [|done]. intros [?|?]; done. }
  destruct (newRequest (URL flags)); cbn [negb].
  2: { split; [cbn; lia|]. split; [|done]. intros [?|?]; done. }
  destruct (clientDo _ _) as [code|] eqn:Hdo.
  2: { split; [cbn; lia|]. split; [|done]. intros [?|?]; done. }
  destruct (Nat.eqb_spec code web.StatusOK) as [->|Hcode]; cbn [negb fst snd].
  - split; [cbn; lia|]. split; [intros [?|?]; done|]. intros _. eauto.
  - split; [cbn; lia|]. split; [|done]. intros [?|?]; done.
Qed.

End pushing.

(* ================================================================== *)
(** * The version text *)
(* ================================================================== *)

Module version.

Lemma substring_bounded (n : nat) (s : string) :
  String.prefix (String.substring 0 n s) s = true
  ∧ String.length (String.substring 0 n s) = n `min` String.length s.
Proof.
  revert s. induction n as [|n IH]; intros [|c s]; cbn; try done.
  destruct (IH s) as [-> ->]. by destruct (Ascii.ascii_dec c c).
Qed.

Lemma prefix_refl (s : string) : String.prefix s s = true.
Proof.
  induction s as [|c s IH]; cbn; [done|]. by destruct (Ascii.ascii_dec c c).
Qed.

(** X21. The text [build] gives is the version, then in brackets the
    first seven bytes of the commit, or all of it when it has no more,
    then the date. *)
Theorem build_short_commit (v commit date : string) :
  ∃ short,
    main.build v commit date = v ++ " (" ++ short ++ ") " ++ date
    ∧ String.prefix short commit = true
    ∧ String.length short = 7 `min` String.length commit.
Proof.
  unfold main.build.
  destruct (Nat.ltb_spec 7 (String.length commit)) as [Hlen|Hlen].
  - exists (String.substring 0 7 commit). split; [done|]. apply substring_bounded.
  - exists commit. split; [done|]. split; [apply prefix_refl|lia].
Qed.

End version.

(* ================================================================== *)
(** * The push handler *)
(* ================================================================== *)

Module handler.
Import config prometheus collector views web.

(** An update that returns an error has left the collector as it was. *)
Lemma update_Err_frame (k : Kind) (c : MetricCollector) (name : string)
    (value : float64) (labels : GoMap) (e : collector.error) :
  (update k c name value labels).2 = Err e →
  (update k c name value labels).1 = c.
Proof.
  destruct k; cbn [update];
    [unfold UpdateGauge; destruct (gauges c !! name)
    |unfold IncrementCounterBy; destruct (counters c !! name)
    |unfold ObserveHistogram; destruct (histograms c !! name)
    |unfold ObserveSummary; destruct (summaries c !! name)];
    try done.
  all: destruct (cleanLabels c name labels) as [cleaned| |]; try done.
  all: destruct (GetMetricWith _ _ cleaned) as [[lvs vec]|]; try done.
  by destruct (Counter_Add value lvs vec).
Qed.



#[local] Ltac answered :=
  intros [= <-];
  unfold http_Error, StatusOK, StatusBadRequest, StatusMethodNotAllowed in *;
  cbn in *; intuition (congruence || lia).

(** X22. A response of [PushHandler] has status 200, 400 or 405; it has
    405 exactly when the method is not POST; it has 200 exactly when its
    text is the success text; and a request answered with another status
    has left the collector as it was. *)
Theorem PushHandler_response (unmarshal : string → option MetricUpdate)
    (parse : string → option MetricType) (c : MetricCollector) (r : Request)
    (resp : Response) :
  (PushHandler unmarshal parse c r).2 = inl resp →
  (StatusCode resp = StatusOK ∨ StatusCode resp = StatusBadRequest
   ∨ StatusCode resp = StatusMethodNotAllowed)
  ∧ (StatusCode resp = StatusMethodNotAllowed ↔ Method r ≠ "POST")
  ∧ (StatusCode resp = StatusOK ↔ Message resp = MsgSuccess)
  ∧ (StatusCode resp ≠ StatusOK → (PushHandler unmarshal parse c r).1 = c).
Proof.
  unfold PushHandler.
  destruct (String.eqb_spec (Method r) "POST") as [Hm|Hm]; cbn [negb].
  { destruct (Body r) as [body|]; [|answered].
    destruct (unmarshal body) as [u|]; [|answered].
    destruct (String.eqb (web.Name u) "");
      [answered|].
    destruct (parse (web.Typ u)) as [t|];
      [|answered].
    assert (Hcall : ∀ k,
      match update k c (web.Name u) (Value u) (web.Labels u) with
      | (c', Ok _) => (c', inl {| StatusCode := StatusOK; Message := MsgSuccess |})
      | (c', Err e) => (c', inl (http_Error (MsgUpdateError e) StatusBadRequest))
      | (c', Panic p) => (c', inr p)
      end.2 = inl resp →
      (StatusCode resp = StatusOK ∨ StatusCode resp = StatusBadRequest
       ∨ StatusCode resp = StatusMethodNotAllowed)
      ∧ (StatusCode resp = StatusMethodNotAllowed ↔ Method r ≠ "POST")
      ∧ (StatusCode resp = StatusOK ↔ Message resp = MsgSuccess)
      ∧ (StatusCode resp ≠ StatusOK →
         match update k c (web.Name u) (Value u) (web.Labels u) with
         | (c', Ok _) =>
           (c', inl {| StatusCode := StatusOK; Message := MsgSuccess |})
         | (c', Err e) =>
           (c', inl (http_Error (MsgUpdateError e) StatusBadRequest))
         | (c', Panic p) => (c', @inr Response panic p)
         end.1 = c)).
    { intros k.
      pose proof (update_Err_frame k c (web.Name u) (Value u) (web.Labels u))
        as Hframe.
      destruct (update k c (web.Name u) (Value u) (web.Labels u))
        as [c' [[]|e|p]]; cbn in *; [| |done].
      - answered.
      - specialize (Hframe e eq_refl). answered. }
    destruct (String.eqb t MetricTypeGauge); [exact (Hcall Gauge)|].
    destruct (String.eqb t MetricTypeCounter); [exact (Hcall Counter)|].
    destruct (String.eqb t MetricTypeHistogram); [exact (Hcall Histogram)|].
    destruct (String.eqb t MetricTypeSummary); [exact (Hcall Summary)|].
    answered. }
  answered.
Qed.

Lemma PushHandler_response_witness :
  (PushHandler (λ _, None) (λ _, None) example.collector
               {| Method := "GET"; Body := Some "" |}).1
  = example.collector.
Proof.
  refine (proj2 (proj2 (proj2
    (PushHandler_response (λ _, None) (λ _, None) example.collector
       {| Method := "GET"; Body := Some "" |}
       (http_Error MsgMethodNotAllowed StatusMethodNotAllowed) _))) _).
  - reflexivity.
  - vm_compute. lia.
Defined.



(** X24. The update [Push] posts never makes the handler panic over a
    nil label map: [Push] always sends a label map, empty when no label
    is given. *)
Theorem pushed_update_labels (newRequest : string → bool)
    (clientDo : string → MetricUpdate → option nat)
    (flags : commands.FlagsPush) (url body : string) (u : MetricUpdate)
    (unmarshal : string → option MetricUpdate)
    (parse : string → option MetricType) (c : MetricCollector) :
  (url, u) ∈ (commands.Push newRequest clientDo flags).1 →
  unmarshal body = Some u →
  web.Labels u ≠ None
  ∧ (PushHandler unmarshal parse c {| Method := "POST"; Body := Some body |}).2
    ≠ inr PanicAssignNilMap.
Proof.
  intros Hin Hu.
  assert (Hsome : ∃ m, web.Labels u = Some m).
  { revert Hin. unfold commands.Push.
    destruct (negb _); [by intros ?%elem_of_nil|].
    destruct (commands.parseLabels _ _) as [m|e]; [|by intros ?%elem_of_nil].
    unfold commands.sendMetricUpdate.
    destruct (negb _); [by intros ?%elem_of_nil|].
    destruct (negb _); [by intros ?%elem_of_nil|].
    destruct (clientDo _ _) as [code|];
      [destruct (negb _)|];
      intros [= _ ->]%list_elem_of_singleton; by eexists. }
  destruct Hsome as [m Hm]. split; [congruence|].
  unfold PushHandler. cbn [Method Body negb String.eqb Ascii.eqb Bool.eqb].
  rewrite Hu.
  destruct (String.eqb (web.Name u) ""); [done|].
  destruct (parse (web.Typ u)) as [t|]; [|done].
  rewrite Hm.
  assert (Hcall : ∀ k,
    match update k c (web.Name u) (Value u) (Some m) with
    | (c', Ok _) => (c', inl {| StatusCode := StatusOK; Message := MsgSuccess |})
    | (c', Err e) => (c', inl (http_Error (MsgUpdateError e) StatusBadRequest))
    | (c', Panic p) => (c', inr p)
    end.2 ≠ inr PanicAssignNilMap).
  { intros k.
    pose proof (behaviour.update_not_nil k c (web.Name u) (Value u) m) as Hnn.
    destruct (update k c (web.Name u) (Value u) (Some m)) as [c' [[]|e|p]];
      cbn in *; congruence. }
  destruct (String.eqb t MetricTypeGauge); [exact (Hcall Gauge)|].
  destruct (String.eqb t MetricTypeCounter); [exact (Hcall Counter)|].
  destruct (String.eqb t MetricTypeHistogram); [exact (Hcall Histogram)|].
  destruct (String.eqb t MetricTypeSummary); [exact (Hcall Summary)|].
  done.
Qed.

Lemma pushed_update_labels_witness :
  Some (∅ : gmap string string) ≠ None.
Proof.
  refine (proj1 (pushed_update_labels (λ _, true) (λ _ _, Some 200%nat)
    {| commands.URL := "http://localhost:8080/api/v1/push";
       commands.Name := "job_last_success"; commands.Typ := "gauge";
       commands.Labels := []; commands.Value := 1 |}
    "http://localhost:8080/api/v1/push" ""
    {| web.Name := "job_last_success"; web.Typ := "gauge"; Value := 1;
       web.Labels := Some ∅ |}
    (λ _, Some {| web.Name := "job_last_success"; web.Typ := "gauge";
                  Value := 1; web.Labels := Some ∅ |})
    (λ _, None) example.collector _ _)).
  - vm_compute. apply list_elem_of_here.
  - reflexivity.
Defined.

End handler.

(* ================================================================== *)
(** * Starting to serve *)
(* ================================================================== *)

Module serving.
Import config prometheus prometheus_values collector commands.

(** The descriptor of the build information is accepted under both
    validation schemes. *)
Lemma buildInfo_desc (scheme : ValidationScheme) :
  err (desc (buildInfo scheme)) = None
  ∧ fqName (desc (buildInfo scheme)) = "cronprom_build_info"
  ∧ length (variableLabels (desc (buildInfo scheme))) = 3%nat
  ∧ children (buildInfo scheme) = ∅.
Proof. by destruct scheme; vm_compute. Qed.




(** X26. What [Serve] serves: the collector of the loaded
    configuration, with every definition registered, whose registry
    holds the descriptors of the definitions in their order and then the
    descriptor of the build information; the build information with one
    child, of value 1, at the version, the commit and the date; at the
    address of the configuration. *)
Theorem Serve_serving (readFile : string → option string)
    (unmarshal : string → Config → option Config)
    (parse : string → option Z) (scheme : ValidationScheme)
    (flags : FlagsServe) (cfg : Config) (coll : MetricCollector)
    (info : GaugeVec) (address : string) :
  config_load.LoadConfig readFile unmarshal parse (ConfigFile flags) = inl cfg →
  Serve readFile unmarshal parse scheme flags = Serving coll info address →
  config coll = cfg
  ∧ WellFormed scheme coll
  ∧ descs (GetRegistry coll)
    = ((descOf scheme cfg <$> Metrics cfg) ++ [desc (buildInfo scheme)])%list
  ∧ children info = {[ [Version flags; Commit flags; Date flags] := 1%float ]}
  ∧ address = Address (Web_ cfg).
Proof.
  intros Hload. unfold Serve. rewrite Hload.
  destruct (NewMetricCollector scheme (Some cfg) NewRegistry)
    as [r0 [c| |]] eqn:Hnew; [|done|done].
  pose proof (building.registerMetricsFrom_registry scheme (Metrics cfg)
                (example.empty cfg))
    as (done & left & Hsplit & _ & Hdescs & Hres).
  pose proof Hnew as Hwf.
  apply registration.NewMetricCollector_WellFormed in Hwf as (Hcfg & Hr & Hwf).
  unfold NewMetricCollector, registerMetrics in Hnew.
  change {| config := cfg; registry := NewRegistry; gauges := ∅; counters := ∅;
            histograms := ∅; summaries := ∅ |} with (example.empty cfg) in Hnew.
  change (config (example.empty cfg)) with cfg in *.
  destruct (registerMetricsFrom scheme (example.empty cfg) (Metrics cfg))
    as [c' [e|]]; [done|].
  injection Hnew as <- <-. cbn [fst snd] in *.
  subst left. rewrite app_nil_r in Hsplit. subst done.
  cbn [example.empty registry descs NewRegistry app] in Hdescs.
  destruct (buildInfo_desc scheme) as (Herr & Hfq & Hlen & Hchildren).
  unfold Register. rewrite Herr.
  destruct (existsb _ _); [done|].
  unfold GetMetricWithLabelValues, validateLabelValues. rewrite Hlen.
  cbn [length Nat.eqb negb].
  destruct (forallb utf8_ValidString _); [|done].
  rewrite Hchildren, lookup_empty.
  intros [= <- <- <-].
  split; [done|]. split; [|split; [|split; [|done]]].
  - destruct Hwf as [Hn Hs Hc Hb Ho].
    split; [done|exact Hs| |exact Hb|exact Ho].
    intros m Hin. destruct (Hc m Hin) as (He & Hfqin & Hk).
    split; [done|]. split; [|done].
    cbn [setRegistry registry descs]. rewrite fmap_app.
    apply elem_of_app. by left.
  - cbn. by rewrite Hdescs.
  - unfold Gauge_Set, onChild. cbn [children desc].
    rewrite alter_insert_eq. by rewrite insert_empty.
Qed.

Lemma Serve_serving_witness :
  Address (Web_ example.cfg) = ":8080".
Proof.
  symmetry.
  refine (proj2 (proj2 (proj2 (proj2
    (Serve_serving (λ _, Some "") (λ _ _, Some example.cfg)
       (λ _, Some 30000000000%Z) LegacyValidation
       {| ConfigFile := "config.yml"; Version := "dev"; Commit := "HEAD";
          Date := "now" |}
       {| Global := {| Namespace := "cron_monitor"; RefreshInterval := "30s";
                       parsedInterval := 30000000000 |};
          Metrics := Metrics example.cfg; Web_ := Web_ example.cfg |}
       _ _ ":8080" eq_refl _))))).
  vm_compute. reflexivity.
Defined.




End serving.
